(** * commit-writer: a shallow embedding of [main.go] and its properties

    The program turns a git diff into a commit message with two calls to a
    text-generation backend (a summarizer and a styler).  This file embeds
    the functions of [main.go] ([cleanModelOutput], [callOllama],
    [checkOllama], [getStagedDiff], [stripLabels], [main]) and proves the
    properties of the specification that concern them.

    Go strings are byte sequences; they are modelled by [string] (a list of
    8-bit [ascii]).  The functions of the Go standard library that the
    program calls are modelled in the modules [utf8], [unicode],
    [gostrings], [strconv] and [fenceRe] below, at the level of bytes. *)

From Stdlib Require Import ZArith Ascii String List Bool Lia.
From stdpp Require Import base gmap strings list pretty.

Set Default Proof Using "Type".

(** ** Bytes *)

Definition byte_val (c : ascii) : Z := Z.of_N (N_of_ascii c).
(** [byte(r)]: conversion of an integer to a byte keeps the low 8 bits. *)
Definition byte_of (z : Z) : ascii := ascii_of_N (Z.to_N (z mod 256)).

Definition chr (n : nat) : ascii := ascii_of_nat n.
Definition str1 (n : nat) : string := String (chr n) "".

Definition TAB : ascii := chr 9.
Definition LF : ascii := chr 10.
Definition VT : ascii := chr 11.
Definition FF : ascii := chr 12.
Definition CR : ascii := chr 13.
Definition SP : ascii := chr 32.
Definition DQUOTE : ascii := chr 34.
Definition SQUOTE : ascii := chr 39.
Definition BACKSLASH : ascii := chr 92.
Definition BACKTICK : ascii := chr 96.

(** "\n" and "\r\n" as strings. *)
Definition nl : string := String LF "".
Definition crlf : string := String CR (String LF "").
(** The fence marker: three backticks. *)
Definition fence : string := String BACKTICK (String BACKTICK (String BACKTICK "")).

Definition in_range (lo hi x : Z) : bool := ((lo <=? x) && (x <=? hi))%Z.

(** [s[n:]]; the callers establish [n <= len(s)] (Go panics otherwise). *)
Fixpoint slice_from (n : nat) (s : string) : string :=
  match n, s with
  | O, _ => s
  | S n', String _ s' => slice_from n' s'
  | S _, EmptyString => EmptyString
  end.

(** [s[len(s)-1]], for a non-empty [s]. *)
Fixpoint last_byte (s : string) : option ascii :=
  match s with
  | EmptyString => None
  | String c EmptyString => Some c
  | String _ s' => last_byte s'
  end.

(** The byte [c] occurs in [s]. *)
Fixpoint has_byte (c : ascii) (s : string) : bool :=
  match s with
  | EmptyString => false
  | String d s' => Ascii.eqb c d || has_byte c s'
  end.

(** ** unicode/utf8 *)

Module utf8.

Definition RuneError : Z := 65533.
Definition RuneSelf : Z := 128.
Definition MaxRune : Z := 1114111.

(** The [first] table with its accept ranges: for a leading byte, the
    size of the encoding and the range of the second byte; size 0 is an
    invalid leading byte. *)
Definition lead_info (b0 : Z) : nat * Z * Z :=
  if in_range 194 223 b0 then (2%nat, 128, 191)%Z
  else if (b0 =? 224)%Z then (3%nat, 160, 191)%Z
  else if in_range 225 236 b0 then (3%nat, 128, 191)%Z
  else if (b0 =? 237)%Z then (3%nat, 128, 159)%Z
  else if in_range 238 239 b0 then (3%nat, 128, 191)%Z
  else if (b0 =? 240)%Z then (4%nat, 144, 191)%Z
  else if in_range 241 243 b0 then (4%nat, 128, 191)%Z
  else if (b0 =? 244)%Z then (4%nat, 128, 143)%Z
  else (0%nat, 0, 0)%Z.

Definition cont (c : ascii) : bool := in_range 128 191 (byte_val c).
Definition low6 (c : ascii) : Z := Z.land (byte_val c) 63.

(** [utf8.DecodeRuneInString]: the first rune of [s] and its width in
    bytes; an invalid encoding gives [(RuneError, 1)]. *)
Definition DecodeRuneInString (s : string) : Z * nat :=
  match s with
  | EmptyString => (RuneError, 0)
  | String c0 s1 =>
    let b0 := byte_val c0 in
    if (b0 <? RuneSelf)%Z then (b0, 1)
    else
      let '(sz, lo, hi) := lead_info b0 in
      match sz, s1 with
      | O, _ => (RuneError, 1)
      | _, EmptyString => (RuneError, 1)
      | _, String c1 s2 =>
        if negb (in_range lo hi (byte_val c1)) then (RuneError, 1)
        else if (sz <=? 2)%nat then
          (Z.lor (Z.shiftl (Z.land b0 31) 6) (low6 c1), 2)
        else
          match s2 with
          | EmptyString => (RuneError, 1)
          | String c2 s3 =>
            if negb (cont c2) then (RuneError, 1)
            else if (sz <=? 3)%nat then
              (Z.lor (Z.lor (Z.shiftl (Z.land b0 15) 12)
                            (Z.shiftl (low6 c1) 6)) (low6 c2), 3)
            else
              match s3 with
              | EmptyString => (RuneError, 1)
              | String c3 _ =>
                if negb (cont c3) then (RuneError, 1)
                else
                  (Z.lor (Z.lor (Z.lor (Z.shiftl (Z.land b0 7) 18)
                                       (Z.shiftl (low6 c1) 12))
                                (Z.shiftl (low6 c2) 6)) (low6 c3), 4)
              end
          end
      end
  end.

(** [utf8.ValidString]: no position decodes to an invalid encoding.
    [skip] counts the bytes of the current rune still to pass over. *)
Fixpoint valid_from (skip : nat) (s : string) : bool :=
  match s with
  | EmptyString => true
  | String _ s' =>
    match skip with
    | S k => valid_from k s'
    | O =>
      let '(r, n) := DecodeRuneInString s in
      if (r =? RuneError)%Z && (n =? 1)%nat then false
      else valid_from (n - 1) s'
    end
  end.
Definition ValidString (s : string) : bool := valid_from 0 s.

(** [utf8.ValidRune]. *)
Definition ValidRune (r : Z) : bool :=
  in_range 0 55295 r || in_range 57344 MaxRune r.

(** [utf8.AppendRune]: the encoding of [r]; an invalid rune is encoded
    as [RuneError]. *)
Definition encode3 (r : Z) : string :=
  String (byte_of (Z.lor 224 (Z.shiftr r 12)))
    (String (byte_of (Z.lor 128 (Z.land (Z.shiftr r 6) 63)))
       (String (byte_of (Z.lor 128 (Z.land r 63))) "")).
Definition EncodeRune (r : Z) : string :=
  if in_range 0 127 r then String (byte_of r) ""
  else if in_range 128 2047 r then
    String (byte_of (Z.lor 192 (Z.shiftr r 6)))
      (String (byte_of (Z.lor 128 (Z.land r 63))) "")
  else if negb (ValidRune r) then encode3 RuneError
  else if in_range 2048 65535 r then encode3 r
  else
    String (byte_of (Z.lor 240 (Z.shiftr r 18)))
      (String (byte_of (Z.lor 128 (Z.land (Z.shiftr r 12) 63)))
         (String (byte_of (Z.lor 128 (Z.land (Z.shiftr r 6) 63)))
            (String (byte_of (Z.lor 128 (Z.land r 63))) ""))).

End utf8.

(** ** unicode *)

Module unicode.

(** [unicode.IsSpace]: the Latin-1 spaces, then the White_Space table. *)
Definition IsSpace (r : Z) : bool :=
  if in_range 0 255 r then
    (r =? 9)%Z || (r =? 10)%Z || (r =? 11)%Z || (r =? 12)%Z || (r =? 13)%Z
    || (r =? 32)%Z || (r =? 133)%Z || (r =? 160)%Z
  else
    (r =? 5760)%Z || in_range 8192 8202 r || in_range 8232 8233 r
    || (r =? 8239)%Z || (r =? 8287)%Z || (r =? 12288)%Z.

(** [unicode.ToLower], exact on ASCII and on the two other runes whose
    lower case is an ASCII letter (U+0130 and U+212A).  Every other rune
    is left as it is, where Go consults the Unicode case tables: the
    result is a rune outside ASCII in both, so a comparison of the lowered
    text with an ASCII string, the only use this program makes of it, is
    the one Go computes. *)
Definition ToLower (r : Z) : Z :=
  if in_range 65 90 r then (r + 32)%Z
  else if (r =? 304)%Z then 105%Z
  else if (r =? 8490)%Z then 107%Z
  else r.

End unicode.

(** ** strings *)

Module gostrings.

(** [strings.HasPrefix]. *)
Fixpoint HasPrefix (s p : string) {struct p} : bool :=
  match p with
  | EmptyString => true
  | String a p' =>
    match s with
    | EmptyString => false
    | String b s' => Ascii.eqb a b && HasPrefix s' p'
    end
  end.

(** [strings.Contains]. *)
Fixpoint Contains (s sub : string) : bool :=
  HasPrefix s sub ||
  match s with
  | EmptyString => false
  | String _ s' => Contains s' sub
  end.

(** The width in bytes of the space rune [s] starts with, 0 if it starts
    with none. *)
Definition space_width (s : string) : nat :=
  let '(r, n) := utf8.DecodeRuneInString s in
  if unicode.IsSpace r then n else 0.

(** [strings.TrimLeftFunc(s, unicode.IsSpace)]: the runes are decoded
    from the left; [skip] counts the bytes of the current space rune still
    to pass over. *)
Fixpoint trim_left_from (skip : nat) (s : string) : string :=
  match s with
  | EmptyString => EmptyString
  | String _ s' =>
    match skip with
    | S k => trim_left_from k s'
    | O =>
      match space_width s with
      | O => s
      | S k => trim_left_from k s'
      end
    end
  end.
Definition TrimLeft (s : string) : string := trim_left_from 0 s.

(** [strings.TrimRightFunc(s, unicode.IsSpace)].  Go decodes the runes
    from the right and stops at the first that is no space.  A rune
    decoded from the right is a space exactly when the text ends with the
    encoding of a space rune, and no such encoding is a suffix of another,
    so what Go removes is the longest suffix made of encoded space runes:
    the text is cut at the first position from which only spaces follow. *)
Definition all_space (s : string) : bool :=
  match TrimLeft s with EmptyString => true | _ => false end.
Fixpoint TrimRight (s : string) : string :=
  match s with
  | EmptyString => EmptyString
  | String c s' => if all_space s then EmptyString else String c (TrimRight s')
  end.

(** [strings.TrimSpace]. *)
Definition TrimSpace (s : string) : string := TrimRight (TrimLeft s).

(** [strings.Map]: each rune is decoded, mapped and encoded again; an
    invalid byte decodes to [RuneError]. *)
Fixpoint map_from (mapping : Z -> Z) (skip : nat) (s : string) : string :=
  match s with
  | EmptyString => EmptyString
  | String _ s' =>
    match skip with
    | S k => map_from mapping k s'
    | O =>
      let '(r, n) := utf8.DecodeRuneInString s in
      utf8.EncodeRune (mapping r) +:+ map_from mapping (n - 1) s'
    end
  end.
Definition Map (mapping : Z -> Z) (s : string) : string := map_from mapping 0 s.

(** [strings.ToLower]. *)
Definition ToLower (s : string) : string := Map unicode.ToLower s.

(** [strings.ReplaceAll(s, old, new)] for a non-empty [old] (the program
    passes constants): the occurrences of [old] are replaced from the left,
    without overlap.  [skip] counts the bytes of the current occurrence
    still to pass over. *)
Fixpoint replace_from (old new : string) (skip : nat) (s : string) : string :=
  match s with
  | EmptyString => EmptyString
  | String c s' =>
    match skip with
    | S k => replace_from old new k s'
    | O =>
      if HasPrefix s old
      then new +:+ replace_from old new (String.length old - 1) s'
      else String c (replace_from old new 0 s')
    end
  end.
Definition ReplaceAll (s old new : string) : string := replace_from old new 0 s.

(** [strings.Split(s, sep)] for a separator of one byte. *)
Fixpoint Split (s : string) (sep : ascii) : list string :=
  match s with
  | EmptyString => [EmptyString]
  | String c s' =>
    if Ascii.eqb c sep then EmptyString :: Split s' sep
    else
      match Split s' sep with
      | [] => [String c EmptyString]
      | h :: t => String c h :: t
      end
  end.

(** [strings.Join(elems, sep)]. *)
Fixpoint Join (elems : list string) (sep : string) : string :=
  match elems with
  | [] => EmptyString
  | [x] => x
  | x :: rest => x +:+ sep +:+ Join rest sep
  end.

End gostrings.

(** ** strconv *)

Module strconv.

(** Arithmetic on [rune] (int32) wraps around. *)
Definition wrap32 (z : Z) : Z := ((z + 2147483648) mod 4294967296 - 2147483648)%Z.

Definition unhex (c : ascii) : option Z :=
  let b := byte_val c in
  if in_range 48 57 b then Some (b - 48)%Z
  else if in_range 97 102 b then Some (b - 97 + 10)%Z
  else if in_range 65 70 b then Some (b - 65 + 10)%Z
  else None.

(** [n] hexadecimal digits, accumulated as [v = v<<4 | x]. *)
Fixpoint hex_digits (n : nat) (v : Z) (s : string) : option (Z * string) :=
  match n with
  | O => Some (v, s)
  | S n' =>
    match s with
    | EmptyString => None
    | String c s' =>
      match unhex c with
      | None => None
      | Some x => hex_digits n' (wrap32 (Z.lor (Z.shiftl v 4) x)) s'
      end
    end
  end.

(** Two more octal digits, accumulated as [v = (v << 3) | x]. *)
Fixpoint oct_digits (n : nat) (v : Z) (s : string) : option (Z * string) :=
  match n with
  | O => Some (v, s)
  | S n' =>
    match s with
    | EmptyString => None
    | String c s' =>
      let x := (byte_val c - 48)%Z in
      if in_range 0 7 x then oct_digits n' (Z.lor (Z.shiftl v 3) x) s' else None
    end
  end.

(** [strconv.UnquoteChar]: the value of the first character or escape
    sequence of [s], whether it is a multibyte rune, and the tail;
    [None] is [ErrSyntax]. *)
Definition UnquoteChar (s : string) (quote : ascii) : option (Z * bool * string) :=
  match s with
  | EmptyString => None
  | String c s1 =>
    if Ascii.eqb c quote && (Ascii.eqb quote SQUOTE || Ascii.eqb quote DQUOTE) then None
    else if (utf8.RuneSelf <=? byte_val c)%Z then
      let '(r, size) := utf8.DecodeRuneInString s in
      Some (r, true, slice_from size s)
    else if negb (Ascii.eqb c BACKSLASH) then Some (byte_val c, false, s1)
    else
      match s1 with
      | EmptyString => None
      | String e s2 =>
        let b := byte_val e in
        if (b =? 97)%Z then Some (7%Z, false, s2)          (* \a *)
        else if (b =? 98)%Z then Some (8%Z, false, s2)     (* \b *)
        else if (b =? 102)%Z then Some (12%Z, false, s2)   (* \f *)
        else if (b =? 110)%Z then Some (10%Z, false, s2)   (* \n *)
        else if (b =? 114)%Z then Some (13%Z, false, s2)   (* \r *)
        else if (b =? 116)%Z then Some (9%Z, false, s2)    (* \t *)
        else if (b =? 118)%Z then Some (11%Z, false, s2)   (* \v *)
        else if (b =? 120)%Z || (b =? 117)%Z || (b =? 85)%Z then   (* \x \u \U *)
          let n := if (b =? 120)%Z then 2 else if (b =? 117)%Z then 4 else 8 in
          match hex_digits n 0 s2 with
          | None => None
          | Some (v, tail) =>
            if (b =? 120)%Z then Some (v, false, tail)
            else if utf8.ValidRune v then Some (v, true, tail)
            else None
          end
        else if in_range 48 55 b then                      (* \ooo *)
          match oct_digits 2 (b - 48) s2 with
          | None => None
          | Some (v, tail) => if (255 <? v)%Z then None else Some (v, false, tail)
          end
        else if (b =? 92)%Z then Some (92%Z, false, s2)    (* an escaped backslash *)
        else if (b =? 39)%Z || (b =? 34)%Z then            (* an escaped quote *)
          if Ascii.eqb e quote then Some (b, false, s2) else None
        else None
      end
  end.

(** The text before the first [quote] in [s], and the text after it. *)
Fixpoint until_quote (quote : ascii) (s : string) : option (string * string) :=
  match s with
  | EmptyString => None
  | String c s' =>
    if Ascii.eqb c quote then Some (EmptyString, s')
    else
      match until_quote quote s' with
      | Some (body, rest) => Some (String c body, rest)
      | None => None
      end
  end.

Fixpoint drop_byte (c : ascii) (s : string) : string :=
  match s with
  | EmptyString => EmptyString
  | String d s' => if Ascii.eqb c d then drop_byte c s' else String d (drop_byte c s')
  end.

(** The loop of [unquote] over a literal with escape sequences; [s] is the
    input after the opening quote and [buf] what was decoded so far.  The
    result is the decoded text and what follows the closing quote.
    [skip] counts the bytes of the current character still to pass over. *)
Fixpoint unquote_loop (quote : ascii) (skip : nat) (s buf : string)
  : option (string * string) :=
  match s with
  | EmptyString => None
  | String c s' =>
    match skip with
    | S k => unquote_loop quote k s' buf
    | O =>
      if Ascii.eqb c quote then Some (buf, s')
      else
        match UnquoteChar s quote with
        | None => None
        | Some (r, multibyte, tail) =>
          if Ascii.eqb c LF then None
          else
            let buf' :=
              buf +:+ (if (r <? utf8.RuneSelf)%Z || negb multibyte
                       then String (byte_of r) EmptyString
                       else utf8.EncodeRune r) in
            if Ascii.eqb quote SQUOTE then
              (* a single-quoted literal holds a single character *)
              match tail with
              | String q rem => if Ascii.eqb q quote then Some (buf', rem) else None
              | EmptyString => None
              end
            else unquote_loop quote (String.length s' - String.length tail) s' buf'
        end
    end
  end.

(** [unquote(in, true)]: the value of the literal [s] starts with, and the
    remainder. *)
Definition unquote (s : string) : option (string * string) :=
  match s with
  | EmptyString => None
  | String quote s1 =>
    match until_quote quote s1 with
    | None => None
    | Some (body, rest) =>
      if Ascii.eqb quote BACKTICK then Some (drop_byte CR body, rest)
      else if Ascii.eqb quote DQUOTE || Ascii.eqb quote SQUOTE then
        let plain := negb (has_byte BACKSLASH body) && negb (has_byte LF body) in
        let valid :=
          if Ascii.eqb quote DQUOTE then utf8.ValidString body
          else
            let '(r, n) := utf8.DecodeRuneInString body in
            (n =? String.length body)%nat && negb ((r =? utf8.RuneError)%Z && (n =? 1)%nat) in
        if plain && valid then Some (body, rest)
        else unquote_loop quote 0 s1 EmptyString
      else None
    end
  end.

(** [strconv.Unquote]: [None] is [ErrSyntax]. *)
Definition Unquote (s : string) : option string :=
  match unquote s with
  | Some (out, EmptyString) => Some out
  | _ => None
  end.

End strconv.

(** ** regexp: the expression [(?s)```[a-zA-Z0-9_-]*\n(.*?)```] *)

Module fenceRe.

(** The class [[a-zA-Z0-9_-]]. *)
Definition tag_byte (c : ascii) : bool :=
  let b := byte_val c in
  in_range 97 122 b || in_range 65 90 b || in_range 48 57 b
  || (b =? 95)%Z || (b =? 45)%Z.

(** The greedy [[a-zA-Z0-9_-]*]: a newline is no tag byte, so only the
    longest run can be followed by the newline the expression asks for. *)
Fixpoint skip_tag (s : string) : string :=
  match s with
  | EmptyString => EmptyString
  | String c s' => if tag_byte c then skip_tag s' else s
  end.

(** The lazy [(.*?)] and the closing fence: the text up to the first
    fence, and the text after that fence. *)
Fixpoint until_fence (s : string) : option (string * string) :=
  match s with
  | EmptyString => None
  | String c s' =>
    if gostrings.HasPrefix s fence then Some (EmptyString, slice_from 3 s)
    else
      match until_fence s' with
      | Some (inner, rest) => Some (String c inner, rest)
      | None => None
      end
  end.

(** A match that starts at the first byte of [s]: the submatch [$1] and
    the text after the match. *)
Definition match_at (s : string) : option (string * string) :=
  if gostrings.HasPrefix s fence then
    match skip_tag (slice_from 3 s) with
    | String c r => if Ascii.eqb c LF then until_fence r else None
    | EmptyString => None
    end
  else None.

(** [fenceRe.MatchString]. *)
Fixpoint MatchString (s : string) : bool :=
  match match_at s with
  | Some _ => true
  | None =>
    match s with
    | EmptyString => false
    | String _ s' => MatchString s'
    end
  end.

(** [fenceRe.ReplaceAllString(s, "$1")]: the matches are found from the
    left, without overlap, and each is replaced by its submatch.  [skip]
    counts the bytes of the current match still to pass over. *)
Fixpoint replace_from (skip : nat) (s : string) : string :=
  match s with
  | EmptyString => EmptyString
  | String c s' =>
    match skip with
    | S k => replace_from k s'
    | O =>
      match match_at s with
      | Some (inner, rest) =>
        inner +:+ replace_from (String.length s' - String.length rest) s'
      | None => String c (replace_from 0 s')
      end
    end
  end.
Definition ReplaceAllString (s : string) : string := replace_from 0 s.

End fenceRe.

(** * The program *)

(** ** [cleanModelOutput] (main.go, lines 85-107) *)

Definition quoted_with (q : ascii) (s : string) : bool :=
  match s, last_byte s with
  | String c _, Some d => Ascii.eqb c q && Ascii.eqb d q
  | _, _ => false
  end.

Definition cleanModelOutput (s : string) : string :=
  let s := gostrings.TrimSpace s in
  let s :=
    if (2 <=? String.length s)%nat && (quoted_with DQUOTE s || quoted_with SQUOTE s)
    then match strconv.Unquote s with
         | Some unq => unq
         | None => s
         end
    else s in
  let s := if fenceRe.MatchString s then fenceRe.ReplaceAllString s else s in
  let s := gostrings.ReplaceAll s fence EmptyString in
  let s := gostrings.ReplaceAll s crlf nl in
  gostrings.TrimSpace s.

(** ** [stripLabels] (main.go, lines 152-170) *)

(** The body of the loop over the lines: what is appended to [result]. *)
Definition strip_line (line : string) : string :=
  let trimmed := gostrings.TrimSpace line in
  if gostrings.HasPrefix (gostrings.ToLower trimmed) "title:"
  then gostrings.TrimSpace (slice_from 6 trimmed)
  else if gostrings.HasPrefix (gostrings.ToLower trimmed) "body:"
  then gostrings.TrimSpace (slice_from 5 trimmed)
  else line.

Definition stripLabels (s : string) : string :=
  let lines := gostrings.Split s LF in
  let result := fold_left (fun result line => result ++ [strip_line line]) lines [] in
  gostrings.Join result nl.

(** ** Data (main.go, lines 21-35) *)

Definition defaultOllamaURL : string := "http://localhost:11434/api/generate".

(** Go errors, by their message. *)
Definition error : Type := string.

(** [err == nil]. *)
Definition is_nil (err : option error) : bool :=
  match err with
  | None => true
  | Some _ => false
  end.

(** The values the program stores in [Options]: [float64] constants, held
    as the decimal fraction [num/den] and never computed with. *)
Inductive Value : Type :=
| Float64 (num : Z) (den : positive).

Global Instance Value_eq_dec : EqDecision Value.
Proof. solve_decision. Defined.

Record OllamaReq : Type := mkOllamaReq {
  req_Model : string;
  req_Prompt : string;
  req_Stream : bool;
  req_Options : gmap string Value
}.

Global Instance OllamaReq_eq_dec : EqDecision OllamaReq.
Proof. solve_decision. Defined.

Record OllamaResp : Type := mkOllamaResp {
  resp_Model : string;
  resp_CreatedAt : string;
  resp_Response : string;
  resp_Done : bool
}.

(** ** The world outside the program *)

(** [time.Duration] counts nanoseconds. *)
Definition Second : Z := 1000000000.

(** [http.Client], by the one field the program sets. *)
Record Client : Type := mkClient { Timeout : Z }.

(** [http.Request]: method, URL, header and, for a POST, the request that
    was marshalled into the body. *)
Record Request : Type := mkRequest {
  Method : string;
  URL : string;
  Header : list (string * string);
  Payload : option OllamaReq
}.

(** [http.Response].  The body is held the way its two readers see it:
    [io.ReadAll] gets the bytes, and [json.Decoder] gets the sequence of
    results of its successive [Decode] calls, a decoded value or an error
    that is not [io.EOF]; after the last of them [Decode] returns [io.EOF].
    [CloseErr] is what [Body.Close] returns. *)
Record Response : Type := mkResponse {
  StatusCode : Z;
  Body : string;
  BodyValues : list (OllamaResp + error);
  CloseErr : option error
}.

Inductive FsOp : Type :=
| OpReadFile | OpWriteFile | OpStat | OpOpenFile | OpWriteString | OpClose.

(** What the program does not decide: the libraries whose result depends on
    more than the model holds, the backend, git and the failures of the
    file system.  [client_Do n] answers the request number [n] of the run,
    so that the same request may be answered differently when it is sent
    again. *)
Record Env : Type := mkEnv {
  json_Marshal : OllamaReq -> option error;
  http_NewRequest : string -> string -> option error;
  client_Do : nat -> Client -> Request -> error + Response;
  url_Parse : string -> option error;
  url_WithPath : string -> string -> string;
  exec_CombinedOutput : list string -> string * option error;
  os_fault : FsOp -> string -> option error
}.

(** The log of what the run did, in order: what it printed, the operations
    on the outside world with their outcome ([data] is what was read or was
    to be written), and the calls of the three collaborators
    ([checkOllama], [getStagedDiff], [callOllama]) with what they returned,
    logged when they return. *)
Inductive Event : Type :=
| EvStdout (text : string)
| EvStderr (text : string)
| EvLog (text : string)
| EvHttp (c : Client) (r : Request)
| EvExec (cmd : list string)
| EvFs (op : FsOp) (path : string) (data : string) (err : option error)
| EvCheckOllama (url : string) (result : option error)
| EvGetStagedDiff (result : string * option error)
| EvCallOllama (url : string) (req : OllamaReq) (result : string * option error).

Record State : Type := mkState {
  fs : gmap string string;
  requests : nat;
  trace : list Event
}.

(** ** The monad of the program: state, and [os.Exit] *)

Inductive Res (A : Type) : Type :=
| Ret (a : A)
| Exit (code : Z).
Arguments Ret {A} a.
Arguments Exit {A} code.

Definition M (A : Type) : Type := State -> Res A * State.

Definition ret {A} (a : A) : M A := fun st => (Ret a, st).
Definition bind {A B} (m : M A) (k : A -> M B) : M B :=
  fun st =>
    match m st with
    | (Ret a, st') => k a st'
    | (Exit code, st') => (Exit code, st')
    end.
Definition os_Exit {A} (code : Z) : M A := fun st => (Exit code, st).

Declare Scope prog_scope.
Delimit Scope prog_scope with prog.
Notation "x <- m ;; k" := (bind m (fun x => k))
  (at level 100, m at next level, k at level 200, right associativity) : prog_scope.
Notation "m ;; k" := (bind m (fun _ => k))
  (at level 100, k at level 200, right associativity) : prog_scope.
Local Open Scope prog_scope.

Definition emit (e : Event) : M unit :=
  fun st => (Ret tt, mkState (fs st) (requests st) (trace st ++ [e])).

Definition when (b : bool) (m : M unit) : M unit := if b then m else ret tt.

(** [for x := range l { s = body(x, s) }]. *)
Fixpoint for_each {A S : Type} (l : list A) (body : A -> S -> M S) (s : S) : M S :=
  match l with
  | [] => ret s
  | a :: l' => s' <- body a s ;; for_each l' body s'
  end.

(** The exit code of a run: 0 when [main] returns. *)
Definition exit_code {A} (r : Res A * State) : Z :=
  match fst r with
  | Ret _ => 0
  | Exit code => code
  end.

(** ** The functions of main.go *)

Section Program.

Context (env : Env).

(** *** Primitives *)

(** [fmt.Fprintf(os.Stderr, ...)], [fmt.Println] and [log.Printf]. *)
Definition eprint (text : string) : M unit := emit (EvStderr text).
Definition println (text : string) : M unit := emit (EvStdout (text +:+ nl)).
Definition log_Printf (text : string) : M unit := emit (EvLog text).

(** [statusf] (lines 209-211). *)
Definition statusf (text : string) : M unit :=
  eprint ("[status] " +:+ text +:+ nl).

(** [client.Do]. *)
Definition Do (c : Client) (r : Request) : M (error + Response) :=
  fun st =>
    (Ret (client_Do env (requests st) c r),
     mkState (fs st) (S (requests st)) (trace st ++ [EvHttp c r])).

(** [cmd.CombinedOutput]. *)
Definition CombinedOutput (cmd : list string) : M (string * option error) :=
  emit (EvExec cmd) ;; ret (exec_CombinedOutput env cmd).

(** The error for a file that does not exist. *)
Definition missing (op path : string) : error :=
  op +:+ " " +:+ path +:+ ": no such file or directory".

(** A file operation returns [r] and leaves the files [files]; it is
    logged with its outcome. *)
Definition fs_op {A} (op : FsOp) (path data : string) (err : option error)
           (r : A) (files : gmap string string) : M A :=
  fun st =>
    (Ret r, mkState files (requests st) (trace st ++ [EvFs op path data err])).

(** [os.ReadFile]. *)
Definition os_ReadFile (path : string) : M (string + error) :=
  fun st =>
    match os_fault env OpReadFile path, fs st !! path with
    | Some err, _ => fs_op OpReadFile path EmptyString (Some err) (inr err) (fs st) st
    | None, Some data => fs_op OpReadFile path data None (inl data) (fs st) st
    | None, None =>
      let err := missing "open" path in
      fs_op OpReadFile path EmptyString (Some err) (inr err) (fs st) st
    end.

(** [os.WriteFile]: the file is created or truncated, then written; a
    failure is taken to come before any byte is written. *)
Definition os_WriteFile (path data : string) : M (option error) :=
  fun st =>
    match os_fault env OpWriteFile path with
    | Some err => fs_op OpWriteFile path data (Some err) (Some err) (fs st) st
    | None => fs_op OpWriteFile path data None None (<[path := data]> (fs st)) st
    end.

(** The error of an operation that needs the file to exist. *)
Definition lookup_err (op : FsOp) (what path : string) (files : gmap string string)
  : option error :=
  match os_fault env op path, files !! path with
  | Some err, _ => Some err
  | None, Some _ => None
  | None, None => Some (missing what path)
  end.

(** [os.Stat]: the error, [None] when the file exists. *)
Definition os_Stat (path : string) : M (option error) :=
  fun st =>
    let err := lookup_err OpStat "stat" path (fs st) in
    fs_op OpStat path EmptyString err err (fs st) st.

(** [os.OpenFile(path, os.O_APPEND|os.O_WRONLY, 0644)]: the file is not
    created. *)
Definition os_OpenFile (path : string) : M (option error) :=
  fun st =>
    let err := lookup_err OpOpenFile "open" path (fs st) in
    fs_op OpOpenFile path EmptyString err err (fs st) st.

(** [f.WriteString] on a file opened for appending; a failure is taken to
    come before any byte is written. *)
Definition WriteString (path data : string) : M (option error) :=
  fun st =>
    match os_fault env OpWriteString path with
    | Some err => fs_op OpWriteString path data (Some err) (Some err) (fs st) st
    | None =>
      fs_op OpWriteString path data None None
            (<[path := default EmptyString (fs st !! path) +:+ data]> (fs st)) st
    end.

(** [f.Close]. *)
Definition Close (path : string) : M (option error) :=
  fun st =>
    let err := os_fault env OpClose path in
    fs_op OpClose path EmptyString err err (fs st) st.

(** The deferred [resp.Body.Close()] of [callOllama] and [checkOllama]. *)
Definition close_body (resp : Response) (what : string) : M unit :=
  match CloseErr resp with
  | Some cerr => log_Printf ("warning: failed to close " +:+ what +:+ ": " +:+ cerr)
  | None => ret tt
  end.

(** *** [callOllama] (lines 37-81) *)

(** The decoding loop (lines 65-75): [values] is what the successive
    [decoder.Decode(&o)] return before [io.EOF]. *)
Fixpoint decode_stream (values : list (OllamaResp + error)) (result : string)
  : string + error :=
  match values with
  | [] => inl result
  | inr err :: _ => inr ("failed to decode response: " +:+ err)
  | inl o :: rest => decode_stream rest (result +:+ resp_Response o)
  end.

Definition callOllama_body (url : string) (req : OllamaReq)
  : M (string * option error) :=
  match json_Marshal env req with
  | Some err => ret (EmptyString, Some ("failed to marshal request: " +:+ err))
  | None =>
    let client := mkClient (60 * Second) in
    match http_NewRequest env "POST" url with
    | Some err => ret (EmptyString, Some err)
    | None =>
      let r := mkRequest "POST" url [("Content-Type", "application/json")] (Some req) in
      d <- Do client r ;;
      match d with
      | inl err => ret (EmptyString, Some err)
      | inr resp =>
        res <-
          (if (400 <=? StatusCode resp)%Z then
             ret (EmptyString,
                  Some ("ollama error: status=" +:+ pretty (StatusCode resp)
                        +:+ " body=" +:+ Body resp))
           else
             match decode_stream (BodyValues resp) EmptyString with
             | inr err => ret (EmptyString, Some err)
             | inl result =>
               let result := cleanModelOutput result in
               ret (gostrings.TrimSpace result, None)
             end) ;;
        close_body resp "response body" ;;
        ret res
      end
    end
  end.

Definition callOllama (url : string) (req : OllamaReq) : M (string * option error) :=
  result <- callOllama_body url req ;;
  emit (EvCallOllama url req result) ;;
  ret result.

(** *** [checkOllama] (lines 109-132) *)

Definition checkOllama_body (ollamaURL : string) : M (option error) :=
  match url_Parse env ollamaURL with
  | Some err => ret (Some ("invalid ollama URL: " +:+ err))
  | None =>
    let u := url_WithPath env ollamaURL "/api/tags" in
    let client := mkClient (3 * Second) in
    d <- Do client (mkRequest "GET" u [] None) ;;
    match d with
    | inl _ =>
      ret (Some "ollama does not appear to be running; start it with 'ollama serve'")
    | inr resp =>
      res <-
        (if (400 <=? StatusCode resp)%Z then
           ret (Some ("ollama tags endpoint returned status "
                      +:+ pretty (StatusCode resp) +:+ ": "
                      +:+ gostrings.TrimSpace (Body resp)))
         else ret None) ;;
      close_body resp "tags response body" ;;
      ret res
    end
  end.

Definition checkOllama (ollamaURL : string) : M (option error) :=
  result <- checkOllama_body ollamaURL ;;
  emit (EvCheckOllama ollamaURL result) ;;
  ret result.

(** *** [getStagedDiff] (lines 134-149) *)

Definition getStagedDiff_body : M (string * option error) :=
  r <- CombinedOutput ["git"; "diff"; "--staged"] ;;
  match r with
  | (out, Some err) =>
    ret (EmptyString, Some ("git --staged failed: " +:+ err +:+ "; output=" +:+ out))
  | (out, None) =>
    if String.eqb (gostrings.TrimSpace out) EmptyString then
      r2 <- CombinedOutput ["git"; "diff"] ;;
      match r2 with
      | (out2, Some err2) =>
        ret (EmptyString, Some ("git diff failed: " +:+ err2 +:+ "; output=" +:+ out2))
      | (out2, None) => ret (out2, None)
      end
    else ret (out, None)
  end.

Definition getStagedDiff : M (string * option error) :=
  result <- getStagedDiff_body ;;
  emit (EvGetStagedDiff result) ;;
  ret result.

End Program.

(** *** [main] (lines 172-387) *)

(** The flags, as [flag.Parse] leaves them; [ollamaURL] defaults to the
    environment variable [OLLAMA_URL]. *)
Record Flags : Type := mkFlags {
  ollamaURL : string;
  summarizerModel : string;
  styleModel : string;
  tone : string;
  hookFile : string;
  forceWrite : bool;
  debug : bool;
  noLabels : bool;
  saveSummary : string;
  loadSummary : string
}.

(** [%v] of a [bool]. *)
Definition fmt_bool (b : bool) : string := if b then "true" else "false".

(** Lines 251-266. *)
Definition summaryPrompt (diff : string) : string :=
  ("Summarize the following git diff with strict factual accuracy.
Produce TWO sections:
1. A short commit title (max 60 chars)
2. A 3-40 line commit body describing the key changes.

Rules:
- Title should be imperative tense.
- Body should describe files, functions, and intent.
- Do NOT invent or hallucinate.
- Keep it concise.

Diff:
" +:+ diff +:+ "
")
  +:+ "

OUTPUT FORMAT:
TITLE (one line)
BLANK LINE
BODY (2-4 lines)
".

(** Lines 309-318. *)
Definition stylePrompt (tone sum : string) : string :=
  "Rewrite the following commit (title + body) but:
- KEEP the factual content *exactly*.
- Apply this tone: " +:+ tone +:+ "
- Make it wild/funny/chaotic while readable.
- Maintain title + body structure.
- 1 title line, 2-40 body lines.

Original commit:
" +:+ sum +:+ "
".

(** The request of the summarizer (lines 273-280) and of the styler
    (lines 321-328). *)
Definition summarizerReq (f : Flags) (diff : string) : OllamaReq :=
  mkOllamaReq (summarizerModel f) (summaryPrompt diff) false
              {[ "temperature" := Float64 0 1 ]}.
Definition styleReq (f : Flags) (sum : string) : OllamaReq :=
  mkOllamaReq (styleModel f) (stylePrompt (tone f) sum) false
              {[ "temperature" := Float64 9 10 ]}.

Definition hookDelimiter : string :=
  nl +:+ "# Suggested commit message (auto-generated):" +:+ nl.

Section Main.

Context (env : Env).

(** Lines 198-200. *)
Definition effectiveURL (f : Flags) : string :=
  if String.eqb (ollamaURL f) EmptyString then defaultOllamaURL else ollamaURL f.

(** Lines 202-206. *)
Definition debug_flags (f : Flags) : M unit :=
  when (debug f)
    (log_Printf ("debug: ollamaURL=" +:+ effectiveURL f
                 +:+ " summarizerModel=" +:+ summarizerModel f
                 +:+ " styleModel=" +:+ styleModel f
                 +:+ " tone=" +:+ tone f
                 +:+ " hookFile=" +:+ hookFile f
                 +:+ " force=" +:+ fmt_bool (forceWrite f)
                 +:+ " noLabels=" +:+ fmt_bool (noLabels f)
                 +:+ " saveSummary=" +:+ saveSummary f
                 +:+ " loadSummary=" +:+ loadSummary f)).

(** Lines 216-227: the summary is read from the file. *)
Definition load_summary (f : Flags) : M string :=
  statusf ("Loading summary from " +:+ loadSummary f) ;;
  r <- os_ReadFile env (loadSummary f) ;;
  match r with
  | inr err =>
    eprint ("Error reading summary file: " +:+ err +:+ nl) ;;
    when (debug f) (log_Printf ("readfile error: " +:+ err)) ;;
    os_Exit 2
  | inl data =>
    let sum := data in
    statusf ("Summary loaded (" +:+ pretty (String.length sum) +:+ " bytes)") ;;
    ret sum
  end.

(** Lines 271-289: the loop over the attempts; the state of the loop is
    [(sum, lastErr)]. *)
Definition summarize_attempt (f : Flags) (summaryPrompt : string)
           (attempt : Z) (s : string * option error) : M (string * option error) :=
  r <- callOllama env (effectiveURL f)
         (mkOllamaReq (summarizerModel f) summaryPrompt false
                      {[ "temperature" := Float64 0 1 ]}) ;;
  match r with
  | (sum, Some lastErr) =>
    when (debug f)
      (log_Printf ("summarizer call error (attempt " +:+ pretty attempt +:+ "): "
                   +:+ lastErr)) ;;
    ret (sum, Some lastErr)
  | (sum, None) =>
    statusf ("Summary received (attempt " +:+ pretty attempt +:+ ")") ;;
    ret (sum, None)
  end.

(** Lines 229-306: the summary is generated, and saved if asked for. *)
Definition make_summary (f : Flags) : M string :=
  statusf ("Checking Ollama availability at " +:+ effectiveURL f) ;;
  c <- checkOllama env (effectiveURL f) ;;
  match c with
  | Some err =>
    eprint (err +:+ nl) ;;
    when (debug f) (log_Printf ("checkOllama error: " +:+ err)) ;;
    os_Exit 1
  | None =>
    statusf "Ollama reachable" ;;
    statusf "Gathering git diff (staged or unstaged)" ;;
    d <- getStagedDiff env ;;
    match d with
    | (_, Some err) =>
      eprint ("Error reading git diff: " +:+ err +:+ nl) ;;
      when (debug f) (log_Printf ("getStagedDiff error: " +:+ err)) ;;
      os_Exit 2
    | (diff, None) =>
      statusf ("Diff collected (" +:+ pretty (String.length diff) +:+ " bytes)") ;;
      statusf ("Calling summarizer model '" +:+ summarizerModel f +:+ "'") ;;
      r <- for_each [1%Z; 2%Z] (summarize_attempt f (summaryPrompt diff))
                    (EmptyString, None) ;;
      match r with
      | (_, Some lastErr) =>
        eprint ("Summarizer error: " +:+ lastErr +:+ nl) ;;
        os_Exit 3
      | (sum, None) =>
        (if negb (String.eqb (saveSummary f) EmptyString) then
           statusf ("Saving summary to " +:+ saveSummary f) ;;
           w <- os_WriteFile env (saveSummary f) sum ;;
           match w with
           | Some err =>
             eprint ("Warning: failed to save summary: " +:+ err +:+ nl) ;;
             when (debug f) (log_Printf ("save summary error: " +:+ err))
           | None => statusf "Summary saved successfully"
           end
         else ret tt) ;;
        ret sum
      end
    end
  end.

(** Lines 309-342: the styling call and what is printed. *)
Definition style (f : Flags) (sum : string) : M string :=
  statusf ("Calling style model '" +:+ styleModel f +:+ "' with tone: " +:+ tone f) ;;
  r <- callOllama env (effectiveURL f)
         (mkOllamaReq (styleModel f) (stylePrompt (tone f) sum) false
                      {[ "temperature" := Float64 9 10 ]}) ;;
  match r with
  | (_, Some err) =>
    eprint ("Styling model error: " +:+ err +:+ nl) ;;
    when (debug f) (log_Printf ("styling call error: " +:+ err)) ;;
    os_Exit 4
  | (finalMsg, None) =>
    statusf "Final message generated" ;;
    let finalMsg := gostrings.TrimSpace finalMsg in
    let finalMsg := if noLabels f then stripLabels finalMsg else finalMsg in
    println finalMsg ;;
    ret finalMsg
  end.

(** Lines 344-385: the message is written to the hook file.  The result
    tells whether the file opened for appending is still to be closed when
    [main] returns. *)
Definition write_hook (f : Flags) (finalMsg : string) : M bool :=
  if negb (String.eqb (hookFile f) EmptyString) then
    (if forceWrite f then
       statusf ("Writing suggested message to " +:+ hookFile f +:+ " (overwrite)")
     else
       e <- os_Stat env (hookFile f) ;;
       match e with
       | None => statusf ("Appending suggested message to " +:+ hookFile f)
       | Some _ => statusf ("Writing suggested message to " +:+ hookFile f)
       end) ;;
    e <- os_Stat env (hookFile f) ;;
    opened <-
      (if is_nil e && negb (forceWrite f) then
         o <- os_OpenFile env (hookFile f) ;;
         match o with
         | Some err =>
           eprint ("failed to open hook file for append: " +:+ err +:+ nl) ;;
           when (debug f) (log_Printf ("openfile error: " +:+ err)) ;;
           os_Exit 5
         | None =>
           w <- WriteString env (hookFile f) (hookDelimiter +:+ finalMsg +:+ nl) ;;
           match w with
           | Some err =>
             eprint ("failed to write to hook file: " +:+ err +:+ nl) ;;
             when (debug f) (log_Printf ("write error: " +:+ err)) ;;
             os_Exit 6
           | None => ret true
           end
         end
       else
         w <- os_WriteFile env (hookFile f) (finalMsg +:+ nl) ;;
         match w with
         | Some err =>
           eprint ("failed to write hook file: " +:+ err +:+ nl) ;;
           when (debug f) (log_Printf ("writefile error: " +:+ err)) ;;
           os_Exit 7
         | None => ret false
         end) ;;
    statusf ("Hook file updated: " +:+ hookFile f) ;;
    ret opened
  else ret false.

(** The deferred [f.Close()] of line 363, run when [main] returns. *)
Definition close_hook (f : Flags) (opened : bool) : M unit :=
  if opened then
    c <- Close env (hookFile f) ;;
    match c with
    | Some cerr => log_Printf ("warning: failed to close hook file: " +:+ cerr)
    | None => ret tt
    end
  else ret tt.

Definition main (f : Flags) : M unit :=
  debug_flags f ;;
  sum <- (if negb (String.eqb (loadSummary f) EmptyString)
          then load_summary f
          else make_summary f) ;;
  finalMsg <- style f sum ;;
  opened <- write_hook f finalMsg ;;
  statusf "Done" ;;
  close_hook f opened.

End Main.

(** * The vocabulary of the statements *)

Import gostrings.
#[local] Arguments String.append : simpl nomatch.

(** One and two backticks: what is left of a fence marker that is cut. *)
Definition tick1 : string := String BACKTICK "".
Definition tick2 : string := String BACKTICK (String BACKTICK "").

(** ** Labels *)

(** Lower case of the ASCII letters, byte by byte; other bytes are kept. *)
Definition lower_byte (c : ascii) : ascii :=
  if in_range 65 90 (byte_val c) then byte_of (byte_val c + 32) else c.

Fixpoint lower_ascii (s : string) : string :=
  match s with
  | EmptyString => EmptyString
  | String c s' => String (lower_byte c) (lower_ascii s')
  end.

(** The strings of ASCII bytes. *)
Definition is_ascii_byte (c : ascii) : bool := (byte_val c <? 128)%Z.

Fixpoint is_ascii (s : string) : bool :=
  match s with
  | EmptyString => true
  | String c s' => is_ascii_byte c && is_ascii s'
  end.

(** [s[:n]], or [s] when it is shorter. *)
Fixpoint first_bytes (n : nat) (s : string) : string :=
  match n, s with
  | S n', String c s' => String c (first_bytes n' s')
  | _, _ => EmptyString
  end.

(** [t] starts with [label], written in any mix of ASCII cases. *)
Definition labelled (label t : string) : Prop :=
  exists l rest, t = l +:+ rest /\ lower_ascii l = label.

(** ** Runs and what is observed of them *)

(** The state a run starts in: the files [files], no request sent,
    nothing logged. *)
Definition init (files : gmap string string) : State := mkState files 0 [].

(** The events that happen inside the three collaborators. *)
Definition inner (e : Event) : bool :=
  match e with
  | EvHttp _ _ | EvLog _ | EvExec _ => true
  | _ => false
  end.

(** The events of the stage that writes the hook file. *)
Definition hook_event (e : Event) : bool :=
  match e with
  | EvStderr _ | EvLog _ | EvFs _ _ _ _ => true
  | _ => false
  end.

(** A list of events of the class [K]. *)
Definition only (K : Event -> bool) (l : list Event) : Prop :=
  Forall (fun e => K e = true) l.

(** What [if debug { log.Printf(text) }] logs. *)
Definition dbg (b : bool) (text : string) : list Event :=
  if b then [EvLog text] else [].

(** What the deferred close of a response body logs. *)
Definition close_events (resp : Response) (what : string) : list Event :=
  match CloseErr resp with
  | Some cerr => [EvLog ("warning: failed to close " +:+ what +:+ ": " +:+ cerr)]
  | None => []
  end.

(** The events of a trace that [p] picks, in order. *)
Fixpoint select {A} (p : Event -> option A) (evs : list Event) : list A :=
  match evs with
  | [] => []
  | e :: rest =>
    match p e with
    | Some a => a :: select p rest
    | None => select p rest
    end
  end.

(** The results of the calls of [checkOllama], [getStagedDiff] and
    [callOllama] (with the request), the file operations, and the lines
    printed on the two output streams. *)
Definition probes : list Event -> list (option error) :=
  select (fun e => match e with EvCheckOllama _ r => Some r | _ => None end).
Definition diffs : list Event -> list (string * option error) :=
  select (fun e => match e with EvGetStagedDiff r => Some r | _ => None end).
Definition calls : list Event -> list (OllamaReq * (string * option error)) :=
  select (fun e => match e with EvCallOllama _ req r => Some (req, r) | _ => None end).
Definition fsops : list Event -> list (FsOp * string * string * option error) :=
  select (fun e => match e with EvFs op p d r => Some (op, p, d, r) | _ => None end).
Definition stdout : list Event -> list string :=
  select (fun e => match e with EvStdout t => Some t | _ => None end).
Definition stderr : list Event -> list string :=
  select (fun e => match e with EvStderr t => Some t | _ => None end).

(** [p] picks no event of the class [K]; the class [K] has no print on
    standard output. *)
Definition blind_on {A} (K : Event -> bool) (p : Event -> option A) : Prop :=
  forall e, K e = true -> p e = None.

Definition quiet (K : Event -> bool) : Prop := forall t, K (EvStdout t) = false.

(** The trace before, and after, the final message is printed. *)
Fixpoint before_print (evs : list Event) : list Event :=
  match evs with
  | [] => []
  | EvStdout _ :: _ => []
  | e :: rest => e :: before_print rest
  end.

Fixpoint after_print (evs : list Event) : list Event :=
  match evs with
  | [] => []
  | EvStdout _ :: rest => rest
  | _ :: rest => after_print rest
  end.

(** The requests of the two stages differ by their temperature. *)
Definition is_summarizer (req : OllamaReq) : bool :=
  bool_decide (req_Options req = {[ "temperature" := Float64 0 1 ]}).
Definition is_styler (req : OllamaReq) : bool :=
  bool_decide (req_Options req = {[ "temperature" := Float64 9 10 ]}).

(** A call that returned an error. *)
Definition failed (c : OllamaReq * (string * option error)) : bool :=
  negb (is_nil (snd (snd c))).

Definition summarizer_calls (evs : list Event) :=
  List.filter (fun c => is_summarizer (fst c)) (calls evs).

(** No operation on [path] is made to fail from outside. *)
Definition no_fault (env : Env) (path : string) : Prop :=
  forall op, os_fault env op path = None.

(** The text of a stream: the fragments of its chunks, in the order of
    arrival. *)
Definition fragments (os : list OllamaResp) : string :=
  fold_right (fun o text => resp_Response o +:+ text) EmptyString os.

(** A chunk of a stream, by its fragment and its flag. *)
Definition chunk (text : string) (done : bool) : OllamaResp :=
  mkOllamaResp "m" "2024-01-01T00:00:00Z" text done.

(** The POST of [callOllama] is sent and answered by [resp], with a status
    below 400. *)
Definition answered (env : Env) (st : State) (url : string) (req : OllamaReq)
           (resp : Response) : Prop :=
  json_Marshal env req = None /\
  http_NewRequest env "POST" url = None /\
  client_Do env (requests st) (mkClient (60 * Second))
            (mkRequest "POST" url [("Content-Type", "application/json")] (Some req))
  = inr resp /\
  (StatusCode resp < 400)%Z.

(** Two results of [Decode] that differ at most in what the chunk holds
    besides its fragment. *)
Definition same_text (v w : OllamaResp + error) : Prop :=
  match v, w with
  | inl a, inl b => resp_Response a = resp_Response b
  | inr e, inr e' => e = e'
  | _, _ => False
  end.

(** The timeouts of the clients that sent the requests of a trace. *)
Definition timeouts : list Event -> list Z :=
  select (fun e => match e with EvHttp c _ => Some (Timeout c) | _ => None end).

(** ** Example worlds and inputs *)

(** A response with status 200 and the stream [chunks]. *)
Definition ok (chunks : list OllamaResp) : error + Response :=
  inr (mkResponse 200 EmptyString (map inl chunks) None).

(** A world without faults, where the backend gives the answers
    [answers], one for each request in turn, and is out of reach after the
    last of them. *)
Definition world (answers : list (error + Response)) : Env :=
  mkEnv (fun _ => None) (fun _ _ => None)
        (fun n _ _ => nth n answers (inl "connection refused"))
        (fun _ => None) (fun _ path => "http://localhost:11434" +:+ path)
        (fun _ => ("diff --git a/x b/x", None))
        (fun _ _ => None).

(** The default flags. *)
Definition flags0 : Flags :=
  mkFlags defaultOllamaURL "gemma3:4B" "mistral:7b" "chaotic, wild, funny"
          EmptyString false false false EmptyString EmptyString.

(** The diff that git prints in [world]. *)
Definition diff0 : string := "diff --git a/x b/x".

(** The probe is answered, then the first summarizer call succeeds and the
    second fails. *)
Definition world_retry : Env :=
  world [ok []; ok [chunk "Fix bug" true]; inl "context deadline exceeded"].

(** U+0130, LATIN CAPITAL LETTER I WITH DOT ABOVE, in UTF-8. *)
Definition dotted_I : string := String (chr 196) (String (chr 176) EmptyString).


(** A fenced block with a language tag. *)
Definition fenced : string :=
  fence +:+ "go" +:+ nl +:+ "func f(){}" +:+ nl +:+ fence.

(** A run that loads the summary from a file. *)
Definition flags_load : Flags :=
  mkFlags defaultOllamaURL "gemma3:4B" "mistral:7b" "pirate speak"
          EmptyString false false false EmptyString "summary.txt".

Definition saved : gmap string string := {[ "summary.txt" := "Fix bug" ]}.

(** The probe and three calls of the backend are answered. *)
Definition world_twice : Env :=
  world [ok []; ok [chunk "first" true]; ok [chunk "second" true];
         ok [chunk "styled" true]].

Definition req0 : OllamaReq := summarizerReq flags0 diff0.

(** A stream of two chunks. *)
Definition resp_abcd : Response :=
  mkResponse 200 EmptyString [inl (chunk "ab" false); inl (chunk "cd" true)] None.

(** A stream that goes on after the chunk flagged as the last. *)
Definition resp_late : Response :=
  mkResponse 200 EmptyString
             [inl (chunk "ab" false); inl (chunk "cd" true); inl (chunk "ef" false)] None.

(** A run that writes the hook file, which may hold text already. *)
Definition flags_hook (force : bool) : Flags :=
  mkFlags defaultOllamaURL "gemma3:4B" "mistral:7b" "pirate speak"
          "COMMIT_EDITMSG" force false false EmptyString EmptyString.

Definition edited : gmap string string := {[ "COMMIT_EDITMSG" := "# edit me" +:+ nl ]}.

(** ** The vocabulary of the further properties *)

(** The test of [stripLabels] on a line: it starts with one of the labels. *)
Definition has_label (line : string) : bool :=
  let t := ToLower (TrimSpace line) in
  HasPrefix t "title:" || HasPrefix t "body:".

(** A word in single quotes, with spaces around. *)
Definition single_quoted : string := "  'hello world' ".

(** A message without labels. *)
Definition unlabelled_message : string :=
  "Fix bug" +:+ nl +:+ nl +:+ "  Notitle: kept" +:+ nl +:+ "Extra: info  ".

(** The commands run, and the requests sent, in a trace. *)
Definition execs : list Event -> list (list string) :=
  select (fun e => match e with EvExec cmd => Some cmd | _ => None end).
Definition https : list Event -> list (Client * Request) :=
  select (fun e => match e with EvHttp c r => Some (c, r) | _ => None end).
Definition logs : list Event -> list string :=
  select (fun e => match e with EvLog t => Some t | _ => None end).

(** The POST of [callOllama]. *)
Definition post (url : string) (req : OllamaReq) : Request :=
  mkRequest "POST" url [("Content-Type", "application/json")] (Some req).

(** The GET of [checkOllama]. *)
Definition tags_request (env : Env) (url : string) : Request :=
  mkRequest "GET" (url_WithPath env url "/api/tags") [] None.

(** What [callOllama] makes of a response. *)
Definition read_response (resp : Response) : string * option error :=
  if (400 <=? StatusCode resp)%Z then
    (EmptyString,
     Some ("ollama error: status=" +:+ pretty (StatusCode resp)
           +:+ " body=" +:+ Body resp))
  else
    match decode_stream (BodyValues resp) EmptyString with
    | inr err => (EmptyString, Some err)
    | inl result => (TrimSpace (cleanModelOutput result), None)
    end.

(** Lines 338-341: the message that is printed, from the styler's text. *)
Definition final_message (f : Flags) (text : string) : string :=
  let m := TrimSpace text in
  if noLabels f then stripLabels m else m.

(** The URLs the probe and the backend calls were made to. *)
Definition probe_urls : list Event -> list string :=
  select (fun e => match e with EvCheckOllama u _ => Some u | _ => None end).
Definition call_urls : list Event -> list string :=
  select (fun e => match e with EvCallOllama u _ _ => Some u | _ => None end).

(** What an operation of the hook stage on a file is: on the hook file,
    with the message as its data when it writes. *)
Definition hook_op (f : Flags) (msg : string)
           (o : FsOp * string * string * option error) : Prop :=
  let '(op, p, d, _) := o in
  p = hookFile f /\
  (op = OpWriteFile -> d = msg +:+ nl) /\
  (op = OpWriteString -> d = hookDelimiter +:+ msg +:+ nl) /\
  op <> OpReadFile.

(** A response whose stream is one fenced block, and one whose body fails
    to close. *)
Definition resp_fenced : Response :=
  mkResponse 200 EmptyString [inl (chunk fenced true)] None.
Definition resp_unclosed : Response :=
  mkResponse 200 EmptyString [inl (chunk "Fix bug" true)] (Some "broken pipe").

(** A run with labels stripped that overwrites the hook file; the styler
    answers with a labelled message. *)
Definition flags_strip : Flags :=
  mkFlags EmptyString "gemma3:4B" "mistral:7b" "pirate speak"
          "COMMIT_EDITMSG" true false true "summary.txt" EmptyString.
Definition world_labels : Env :=
  world [ok []; ok [chunk "first" true]; ok [chunk "Fix bug" true];
         ok [chunk ("Title: Arr" +:+ nl) false; chunk "Body: matey " true]].
Definition notes : gmap string string := {[ "NOTES" := "keep me" ]}.

(** * Properties *)

(** ** Strings *)

Lemma append_nil_r (s : string) : s +:+ "" = s.
Proof. induction s; simpl; congruence. Qed.

Lemma append_assoc (a b c : string) : (a +:+ b) +:+ c = a +:+ (b +:+ c).
Proof. induction a; simpl; congruence. Qed.

Lemma length_append (a b : string) :
  String.length (a +:+ b) = String.length a + String.length b.
Proof. induction a; simpl; congruence. Qed.

Lemma HasPrefix_spec (s p : string) :
  HasPrefix s p = true <-> exists r, s = p +:+ r.
Proof.
  revert s. induction p as [|a p IH]; intros s; simpl.
  - split; [intros _; exists s; reflexivity | intros _; reflexivity].
  - destruct s as [|b s]; simpl.
    + split; [discriminate | intros [r Hr]; discriminate].
    + destruct (Ascii.eqb_spec a b) as [->|Hne]; simpl.
      * rewrite IH. split; intros [r Hr]; exists r; congruence.
      * split; [discriminate | intros [r Hr]; congruence].
Qed.

Lemma HasPrefix_app (p r : string) : HasPrefix (p +:+ r) p = true.
Proof. apply HasPrefix_spec. eauto. Qed.

(** *** Decoding, and trimming *)
Lemma IsSpace_RuneError : unicode.IsSpace utf8.RuneError = false.
Proof. reflexivity. Qed.

Lemma decode_ext (a b : string) (r : Z) (n : nat) :
  utf8.DecodeRuneInString a = (r, n) -> r <> utf8.RuneError ->
  utf8.DecodeRuneInString (a +:+ b) = (r, n) /\ 1 <= n <= String.length a.
Proof.
  intros H Hr.
  destruct a as [|c0 a]; [simpl in H; congruence|].
  unfold utf8.DecodeRuneInString in *. cbn [String.append String.length].
  destruct (byte_val c0 <? utf8.RuneSelf)%Z.
  { inversion H; subst. split; [reflexivity | lia]. }
  destruct (utf8.lead_info (byte_val c0)) as [[sz lo] hi].
  destruct sz as [|sz]; [congruence|].
  destruct a as [|c1 a]; [congruence|]. cbn [String.append String.length].
  destruct (negb (in_range lo hi (byte_val c1))); [congruence|].
  destruct (S sz <=? 2).
  { inversion H; subst. split; [reflexivity | lia]. }
  destruct a as [|c2 a]; [congruence|]. cbn [String.append String.length].
  destruct (negb (utf8.cont c2)); [congruence|].
  destruct (S sz <=? 3).
  { inversion H; subst. split; [reflexivity | lia]. }
  destruct a as [|c3 a]; [congruence|]. cbn [String.append String.length].
  destruct (negb (utf8.cont c3)); [congruence|].
  inversion H; subst. split; [reflexivity | lia].
Qed.

Lemma space_width_ext (a b : string) (k : nat) :
  space_width a = S k ->
  space_width (a +:+ b) = S k /\ S k <= String.length a.
Proof.
  unfold space_width. intros H.
  destruct (utf8.DecodeRuneInString a) as [r n] eqn:E.
  destruct (unicode.IsSpace r) eqn:Hs; [|discriminate]. subst n.
  assert (Hr : r <> utf8.RuneError).
  { intros ->. rewrite IsSpace_RuneError in Hs. discriminate. }
  destruct (decode_ext a b r (S k) E Hr) as [-> Hlen].
  rewrite Hs. split; [reflexivity | lia].
Qed.

Lemma trim_left_from_length (s : string) (k : nat) :
  String.length (trim_left_from k s) <= String.length s.
Proof.
  revert k. induction s as [|c s IH]; intros k; simpl; [lia|].
  destruct k as [|k].
  - destruct (space_width (String c s)); simpl; [lia|].
    specialize (IH n). lia.
  - specialize (IH k). lia.
Qed.

Lemma trim_left_from_idem (s : string) (k : nat) :
  trim_left_from 0 (trim_left_from k s) = trim_left_from k s.
Proof.
  revert k. induction s as [|c s IH]; intros k; simpl; [reflexivity|].
  destruct k as [|k]; [|apply IH].
  destruct (space_width (String c s)) eqn:E; [|apply IH].
  simpl. rewrite E. reflexivity.
Qed.

Lemma TrimLeft_idem (s : string) : TrimLeft (TrimLeft s) = TrimLeft s.
Proof. apply trim_left_from_idem. Qed.

Lemma trim_left_from_suffix (s : string) (k : nat) :
  exists p, s = p +:+ trim_left_from k s.
Proof.
  revert k. induction s as [|c s IH]; intros k; simpl.
  - exists EmptyString. reflexivity.
  - destruct k as [|k].
    + destruct (space_width (String c s)).
      * exists EmptyString. reflexivity.
      * destruct (IH n) as [p Hp]. exists (String c p). simpl. congruence.
    + destruct (IH k) as [p Hp]. exists (String c p). simpl. congruence.
Qed.

Lemma TrimLeft_fixed_cons (c : ascii) (s : string) :
  TrimLeft (String c s) = String c s <-> space_width (String c s) = 0.
Proof.
  unfold TrimLeft. simpl. destruct (space_width (String c s)) eqn:E.
  - split; reflexivity.
  - split; [|discriminate]. intros H.
    pose proof (trim_left_from_length s n) as Hl. rewrite H in Hl. simpl in Hl. lia.
Qed.

Lemma trim_left_from_app (a b : string) (k : nat) :
  k <= String.length a -> trim_left_from k a = EmptyString ->
  trim_left_from k (a +:+ b) = TrimLeft b.
Proof.
  revert k. induction a as [|c a IH]; intros k Hk H.
  - simpl in Hk. assert (k = 0) as -> by lia. reflexivity.
  - cbn [String.append]. simpl in H. simpl in Hk. simpl trim_left_from.
    destruct k as [|k].
    + destruct (space_width (String c a)) eqn:E; [discriminate|].
      destruct (space_width_ext _ b _ E) as [E' Hlen].
      cbn [String.append] in E'. rewrite E'. apply IH; [simpl in Hlen; lia | exact H].
    + apply IH; [lia | exact H].
Qed.

Lemma all_space_app (a b : string) :
  all_space a = true -> TrimLeft (a +:+ b) = TrimLeft b.
Proof.
  unfold all_space. intros H. apply trim_left_from_app; [lia|].
  fold (TrimLeft a). destruct (TrimLeft a); [reflexivity | discriminate].
Qed.

Lemma TrimRight_prefix (s : string) :
  exists w, s = TrimRight s +:+ w /\ all_space w = true.
Proof.
  induction s as [|c s IH]; simpl.
  - exists EmptyString. split; reflexivity.
  - destruct (all_space (String c s)) eqn:E.
    + exists (String c s). split; [reflexivity | exact E].
    + destruct IH as [w [Hw Hs]]. exists w. split; [simpl; congruence | exact Hs].
Qed.

Lemma all_space_TrimRight (c : ascii) (s : string) :
  all_space (String c s) = false -> all_space (String c (TrimRight s)) = false.
Proof.
  intros H. destruct (all_space (String c (TrimRight s))) eqn:E; [|reflexivity].
  destruct (TrimRight_prefix s) as [w [Hw Hs]].
  pose proof (all_space_app _ w E) as Happ. cbn [String.append] in Happ.
  rewrite <- Hw in Happ. unfold all_space in H, Hs. rewrite Happ in H.
  destruct (TrimLeft w); discriminate.
Qed.

Lemma TrimRight_idem (s : string) : TrimRight (TrimRight s) = TrimRight s.
Proof.
  induction s as [|c s IH]; simpl; [reflexivity|].
  destruct (all_space (String c s)) eqn:E; [reflexivity|].
  simpl. rewrite (all_space_TrimRight _ _ E). congruence.
Qed.

Lemma TrimLeft_TrimRight (t : string) :
  TrimLeft t = t -> TrimLeft (TrimRight t) = TrimRight t.
Proof.
  destruct t as [|c t]; [reflexivity|]. intros H.
  apply TrimLeft_fixed_cons in H. simpl.
  destruct (all_space (String c t)); [reflexivity|].
  apply TrimLeft_fixed_cons.
  destruct (space_width (String c (TrimRight t))) eqn:E; [reflexivity|].
  destruct (TrimRight_prefix t) as [w [Hw _]].
  destruct (space_width_ext _ w _ E) as [E' _].
  cbn [String.append] in E'. rewrite <- Hw in E'. congruence.
Qed.

(** Trimming is idempotent. *)
Lemma TrimSpace_idem (s : string) : TrimSpace (TrimSpace s) = TrimSpace s.
Proof.
  unfold TrimSpace.
  rewrite (TrimLeft_TrimRight (TrimLeft s) (TrimLeft_idem s)).
  apply TrimRight_idem.
Qed.

(** *** [Contains] and [ReplaceAll] *)
Lemma HasPrefix_app_l (a b p : string) :
  HasPrefix a p = true -> HasPrefix (a +:+ b) p = true.
Proof.
  rewrite !HasPrefix_spec. intros [r ->]. exists (r +:+ b). apply append_assoc.
Qed.

Lemma Contains_app_l (a b sub : string) :
  Contains a sub = true -> Contains (a +:+ b) sub = true.
Proof.
  induction a as [|c a IH]; simpl.
  - rewrite orb_false_r. intros H. destruct sub; [|discriminate].
    destruct b; reflexivity.
  - intros H. apply orb_true_iff in H as [H|H].
    + apply (HasPrefix_app_l (String c a) b) in H. cbn [String.append] in H.
      rewrite H. reflexivity.
    + rewrite (IH H). apply orb_true_r.
Qed.

Lemma Contains_app_r (a b sub : string) :
  Contains b sub = true -> Contains (a +:+ b) sub = true.
Proof.
  intros H. induction a as [|c a IH]; simpl; [exact H|].
  rewrite IH. apply orb_true_r.
Qed.

Lemma replace_from_skip (old new p r : string) :
  replace_from old new (String.length p) (p +:+ r) = replace_from old new 0 r.
Proof. induction p as [|c p IH]; simpl; [reflexivity | exact IH]. Qed.

Lemma ReplaceAll_hit (c : ascii) (old' new r : string) :
  ReplaceAll (String c old' +:+ r) (String c old') new
  = new +:+ ReplaceAll r (String c old') new.
Proof.
  unfold ReplaceAll. cbn [String.append replace_from].
  change (String c (old' +:+ r)) with (String c old' +:+ r).
  rewrite HasPrefix_app.
  replace (String.length (String c old') - 1) with (String.length old')
    by (simpl; lia).
  rewrite replace_from_skip. reflexivity.
Qed.

Lemma ReplaceAll_miss (c : ascii) (s old new : string) :
  HasPrefix (String c s) old = false ->
  ReplaceAll (String c s) old new = String c (ReplaceAll s old new).
Proof. unfold ReplaceAll. cbn [replace_from]. intros ->. reflexivity. Qed.

Lemma ReplaceAll_ind (c : ascii) (old' new : string) (P : string -> string -> Prop) :
  P EmptyString EmptyString ->
  (forall r, P r (ReplaceAll r (String c old') new) ->
             P (String c old' +:+ r) (new +:+ ReplaceAll r (String c old') new)) ->
  (forall d s, HasPrefix (String d s) (String c old') = false ->
               P s (ReplaceAll s (String c old') new) ->
               P (String d s) (String d (ReplaceAll s (String c old') new))) ->
  forall s, P s (ReplaceAll s (String c old') new).
Proof.
  intros Hnil Hhit Hmiss s.
  remember (String.length s) as n eqn:Hn.
  revert s Hn. induction n as [n IH] using lt_wf_ind. intros s Hn.
  destruct s as [|d s]; [exact Hnil|].
  destruct (HasPrefix (String d s) (String c old')) eqn:E.
  - apply HasPrefix_spec in E as [r Hr]. rewrite Hr, ReplaceAll_hit.
    apply Hhit. apply (IH (String.length r)); [|reflexivity].
    subst n. rewrite Hr, length_append. simpl. lia.
  - rewrite (ReplaceAll_miss _ _ _ _ E). apply Hmiss; [exact E|].
    apply (IH (String.length s)); [|reflexivity]. subst n. simpl. lia.
Qed.

Lemma ReplaceAll_absent (s : string) (c : ascii) (old' new : string) :
  Contains s (String c old') = false -> ReplaceAll s (String c old') new = s.
Proof.
  induction s as [|d s IH]; [reflexivity|].
  cbn [Contains]. intros H. apply orb_false_iff in H as [H1 H2].
  rewrite (ReplaceAll_miss _ _ _ _ H1), (IH H2). reflexivity.
Qed.

Lemma HasPrefix_cons (a b : ascii) (s p : string) :
  HasPrefix (String a s) (String b p) = Ascii.eqb b a && HasPrefix s p.
Proof. reflexivity. Qed.

Lemma HasPrefix_nil_l (b : ascii) (p : string) : HasPrefix "" (String b p) = false.
Proof. reflexivity. Qed.

Lemma HasPrefix_nil_r (s : string) : HasPrefix s "" = true.
Proof. reflexivity. Qed.

Lemma fence_removed_lead (s : string) :
  (HasPrefix (ReplaceAll s fence "") tick1 = true -> HasPrefix s tick1 = true) /\
  (HasPrefix (ReplaceAll s fence "") tick2 = true -> HasPrefix s tick2 = true) /\
  HasPrefix (ReplaceAll s fence "") fence = false.
Proof.
  unfold fence, tick2, tick1. apply ReplaceAll_ind.
  - repeat split; discriminate.
  - intros r (H1 & H2 & H3). cbn [String.append].
    rewrite !HasPrefix_cons, !Ascii.eqb_refl, !HasPrefix_nil_r. tauto.
  - intros d t Hd (H1 & H2 & H3). rewrite !HasPrefix_cons, !HasPrefix_nil_r in *.
    destruct (Ascii.eqb BACKTICK d) eqn:Ed; [|repeat split; discriminate].
    rewrite !andb_true_l in *.
    split; [reflexivity|]. split; [exact H1|].
    destruct (HasPrefix (ReplaceAll t (String BACKTICK (String BACKTICK (String BACKTICK ""))) "")
                        (String BACKTICK (String BACKTICK ""))) eqn:E; [|reflexivity].
    rewrite (H2 eq_refl) in Hd. discriminate.
Qed.

Lemma fence_removed (s : string) : Contains (ReplaceAll s fence "") fence = false.
Proof.
  unfold fence. apply ReplaceAll_ind.
  - reflexivity.
  - intros r H. exact H.
  - intros d t Hd H. cbn [Contains]. rewrite H, orb_false_r.
    pose proof (fence_removed_lead (String d t)) as (_ & _ & H3).
    unfold fence in H3. rewrite (ReplaceAll_miss _ _ _ _ Hd) in H3. exact H3.
Qed.

(** Replacing CRLF by LF brings no fence. *)
Lemma crlf_replaced_prefix (s p : string) :
  has_byte LF p = false ->
  HasPrefix (ReplaceAll s crlf nl) p = true -> HasPrefix s p = true.
Proof.
  revert p. unfold crlf. apply ReplaceAll_ind.
  - intros p _ H. exact H.
  - intros r IH p Hp. destruct p as [|b p]; [reflexivity|].
    unfold nl. cbn [String.append]. rewrite HasPrefix_cons.
    cbn [has_byte] in Hp. apply orb_false_iff in Hp as [Hb _].
    rewrite Ascii.eqb_sym, Hb. discriminate.
  - intros d t _ IH p Hp. destruct p as [|b p]; [reflexivity|].
    rewrite !HasPrefix_cons. cbn [has_byte] in Hp. apply orb_false_iff in Hp as [_ Hp].
    intros H. apply andb_true_iff in H as [-> H]. rewrite (IH p Hp H). reflexivity.
Qed.

Lemma crlf_replaced_fence (s : string) :
  Contains (ReplaceAll s crlf nl) fence = true -> Contains s fence = true.
Proof.
  unfold crlf. apply ReplaceAll_ind.
  - intros H. exact H.
  - intros r IH H. apply (Contains_app_r (String CR (String LF ""))).
    apply IH. unfold nl in H. cbn [String.append Contains] in H.
    apply orb_true_iff in H as [H|H]; [discriminate | exact H].
  - intros d t Hd IH H. cbn [Contains] in *.
    apply orb_true_iff in H as [H|H].
    + rewrite <- (ReplaceAll_miss _ _ _ _ Hd) in H.
      rewrite (crlf_replaced_prefix _ fence eq_refl H). reflexivity.
    + rewrite (IH H). apply orb_true_r.
Qed.

Lemma TrimSpace_fence (s : string) :
  Contains (TrimSpace s) fence = true -> Contains s fence = true.
Proof.
  unfold TrimSpace. intros H.
  destruct (trim_left_from_suffix s 0) as [p Hp]. rewrite Hp.
  apply Contains_app_r. fold (TrimLeft s).
  destruct (TrimRight_prefix (TrimLeft s)) as [w [Hw _]]. rewrite Hw.
  apply Contains_app_l. exact H.
Qed.

Lemma match_at_fence (s : string) (m : string * string) :
  fenceRe.match_at s = Some m -> HasPrefix s fence = true.
Proof.
  unfold fenceRe.match_at. destruct (HasPrefix s fence); [reflexivity | discriminate].
Qed.

Lemma MatchString_fence (s : string) :
  fenceRe.MatchString s = true -> Contains s fence = true.
Proof.
  induction s as [|c s IH]; cbn [fenceRe.MatchString Contains].
  - destruct (fenceRe.match_at "") eqn:E; [|discriminate].
    apply match_at_fence in E. discriminate.
  - destruct (fenceRe.match_at (String c s)) eqn:E.
    + intros _. apply match_at_fence in E. rewrite E. reflexivity.
    + intros H. rewrite (IH H). apply orb_true_r.
Qed.

(** A cleaned text holds no fence marker, and is trimmed. *)
Lemma cleanModelOutput_no_fence (x : string) :
  Contains (cleanModelOutput x) fence = false.
Proof.
  unfold cleanModelOutput.
  match goal with |- Contains (TrimSpace (ReplaceAll (ReplaceAll ?z _ _) _ _)) _ = _ =>
    generalize z end.
  intros z.
  destruct (Contains (TrimSpace (ReplaceAll (ReplaceAll z fence "") crlf nl)) fence) eqn:E;
    [|reflexivity].
  apply TrimSpace_fence, crlf_replaced_fence in E.
  rewrite fence_removed in E. discriminate.
Qed.

Lemma cleanModelOutput_trimmed (x : string) :
  TrimSpace (cleanModelOutput x) = cleanModelOutput x.
Proof. unfold cleanModelOutput. apply TrimSpace_idem. Qed.


(** ** [stripLabels] *)

Lemma byte_val_range (c : ascii) : (0 <= byte_val c < 256)%Z.
Proof.
  unfold byte_val. pose proof (N_ascii_bounded c). lia.
Qed.

Lemma byte_of_val (c : ascii) : byte_of (byte_val c) = c.
Proof.
  unfold byte_of. pose proof (byte_val_range c).
  rewrite Z.mod_small by lia. unfold byte_val. rewrite N2Z.id.
  apply ascii_N_embedding.
Qed.

Lemma ToLower_ascii_cons (c : ascii) (s : string) :
  is_ascii_byte c = true ->
  ToLower (String c s) = String (lower_byte c) (ToLower s).
Proof.
  unfold is_ascii_byte. intros Hc.
  unfold ToLower, Map. cbn [map_from].
  unfold utf8.DecodeRuneInString. unfold utf8.RuneSelf. rewrite Hc.
  cbn [Nat.sub]. pose proof (byte_val_range c) as Hr.
  apply Z.ltb_lt in Hc.
  unfold unicode.ToLower, lower_byte.
  destruct (in_range 65 90 (byte_val c)) eqn:E.
  - unfold in_range in E. apply andb_true_iff in E as [E1 E2].
    apply Z.leb_le in E1, E2.
    unfold utf8.EncodeRune.
    replace (in_range 0 127 (byte_val c + 32)) with true; [reflexivity|].
    symmetry. unfold in_range. apply andb_true_iff. split; apply Z.leb_le; lia.
  - replace (byte_val c =? 304)%Z with false by (symmetry; apply Z.eqb_neq; lia).
    replace (byte_val c =? 8490)%Z with false by (symmetry; apply Z.eqb_neq; lia).
    unfold utf8.EncodeRune.
    replace (in_range 0 127 (byte_val c)) with true.
    + rewrite byte_of_val. reflexivity.
    + symmetry. unfold in_range. apply andb_true_iff. split; apply Z.leb_le; lia.
Qed.

Lemma ToLower_nil : ToLower "" = "".
Proof. reflexivity. Qed.

Lemma lower_byte_ascii (c : ascii) :
  is_ascii_byte (lower_byte c) = true -> is_ascii_byte c = true.
Proof.
  unfold lower_byte, is_ascii_byte.
  destruct (in_range 65 90 (byte_val c)) eqn:E; [|tauto].
  intros _. unfold in_range in E. apply andb_true_iff in E as [_ E].
  apply Z.leb_le in E. apply Z.ltb_lt. lia.
Qed.

Lemma lower_ascii_length (l : string) :
  String.length (lower_ascii l) = String.length l.
Proof. induction l; simpl; congruence. Qed.

Lemma ToLower_labelled (l rest : string) :
  is_ascii (lower_ascii l) = true ->
  ToLower (l +:+ rest) = lower_ascii l +:+ ToLower rest.
Proof.
  induction l as [|c l IH]; cbn [lower_ascii is_ascii String.append]; [reflexivity|].
  intros H. apply andb_true_iff in H as [Hc Hl].
  rewrite (ToLower_ascii_cons _ _ (lower_byte_ascii _ Hc)), (IH Hl). reflexivity.
Qed.

Lemma labelled_of_prefix (label t : string) :
  HasPrefix (ToLower t) label = true ->
  labelled label t \/ is_ascii (first_bytes (String.length label) t) = false.
Proof.
  revert t. induction label as [|b label IH]; intros t H.
  - left. exists EmptyString, t. split; reflexivity.
  - destruct t as [|c t]; [discriminate H|].
    cbn [String.length first_bytes is_ascii].
    destruct (is_ascii_byte c) eqn:Hc; [|right; reflexivity].
    rewrite (ToLower_ascii_cons _ _ Hc), HasPrefix_cons in H.
    apply andb_true_iff in H as [Hb H].
    apply Ascii.eqb_eq in Hb.
    destruct (IH t H) as [(l & rest & -> & Hl)|Hn]; [left | right; exact Hn].
    exists (String c l), rest. split; [reflexivity|]. simpl. congruence.
Qed.

Lemma slice_from_app (l rest : string) :
  slice_from (String.length l) (l +:+ rest) = rest.
Proof. induction l; simpl; [destruct rest|]; auto. Qed.

Lemma slice_from_suffix (n : nat) (s : string) : exists p, s = p +:+ slice_from n s.
Proof.
  revert s. induction n as [|n IH]; intros s; simpl.
  - exists EmptyString. reflexivity.
  - destruct s as [|c s]; [exists EmptyString; reflexivity|].
    destruct (IH s) as [p Hp]. exists (String c p). simpl. congruence.
Qed.

Lemma strip_line_title (line l rest : string) :
  TrimSpace line = l +:+ rest -> lower_ascii l = "title:" ->
  strip_line line = TrimSpace rest.
Proof.
  intros Ht Hl. unfold strip_line. rewrite Ht.
  rewrite ToLower_labelled by (rewrite Hl; reflexivity). rewrite Hl.
  rewrite HasPrefix_app.
  replace 6 with (String.length l) by (rewrite <- lower_ascii_length, Hl; reflexivity).
  rewrite slice_from_app. reflexivity.
Qed.

Lemma strip_line_body (line l rest : string) :
  TrimSpace line = l +:+ rest -> lower_ascii l = "body:" ->
  strip_line line = TrimSpace rest.
Proof.
  intros Ht Hl. unfold strip_line. rewrite Ht.
  rewrite ToLower_labelled by (rewrite Hl; reflexivity). rewrite Hl.
  rewrite HasPrefix_app.
  replace (HasPrefix ("body:" +:+ ToLower rest) "title:") with false by reflexivity.
  replace 5 with (String.length l) by (rewrite <- lower_ascii_length, Hl; reflexivity).
  rewrite slice_from_app. reflexivity.
Qed.

Lemma is_ascii_take_le (n m : nat) (t : string) :
  n <= m -> is_ascii (first_bytes m t) = true -> is_ascii (first_bytes n t) = true.
Proof.
  revert m t. induction n as [|n IH]; intros m t Hle H; [reflexivity|].
  destruct m as [|m]; [lia|]. destruct t as [|c t]; [reflexivity|].
  cbn [first_bytes is_ascii] in *. apply andb_true_iff in H as [-> H].
  rewrite (IH m t); [reflexivity | lia | exact H].
Qed.

Lemma strip_line_other (line : string) :
  is_ascii (first_bytes 6 (TrimSpace line)) = true ->
  ~ labelled "title:" (TrimSpace line) ->
  ~ labelled "body:" (TrimSpace line) ->
  strip_line line = line.
Proof.
  intros Ha Ht Hb. unfold strip_line.
  destruct (HasPrefix (ToLower (TrimSpace line)) "title:") eqn:E1.
  { apply labelled_of_prefix in E1 as [E1|E1]; [tauto|].
    cbn [String.length] in E1. congruence. }
  destruct (HasPrefix (ToLower (TrimSpace line)) "body:") eqn:E2; [|reflexivity].
  apply labelled_of_prefix in E2 as [E2|E2]; [tauto|].
  cbn [String.length] in E2.
  rewrite (is_ascii_take_le 5 6) in E2; [discriminate | lia | exact Ha].
Qed.

(** *** [Split] and [Join] *)
Lemma has_byte_app (c : ascii) (a b : string) :
  has_byte c (a +:+ b) = has_byte c a || has_byte c b.
Proof. induction a as [|d a IH]; simpl; [reflexivity|]. rewrite IH. apply orb_assoc. Qed.

Lemma has_byte_app_r (c : ascii) (a b : string) :
  has_byte c (a +:+ b) = false -> has_byte c b = false.
Proof. rewrite has_byte_app. intros H. apply orb_false_iff in H. tauto. Qed.

Lemma has_byte_app_l (c : ascii) (a b : string) :
  has_byte c (a +:+ b) = false -> has_byte c a = false.
Proof. rewrite has_byte_app. intros H. apply orb_false_iff in H. tauto. Qed.

Lemma TrimSpace_has_byte (c : ascii) (s : string) :
  has_byte c s = false -> has_byte c (TrimSpace s) = false.
Proof.
  intros H. unfold TrimSpace.
  destruct (trim_left_from_suffix s 0) as [p Hp]. fold (TrimLeft s) in Hp.
  rewrite Hp in H. apply has_byte_app_r in H.
  destruct (TrimRight_prefix (TrimLeft s)) as [w [Hw _]]. rewrite Hw in H.
  apply has_byte_app_l in H. exact H.
Qed.

Lemma slice_from_has_byte (c : ascii) (n : nat) (s : string) :
  has_byte c s = false -> has_byte c (slice_from n s) = false.
Proof.
  intros H. destruct (slice_from_suffix n s) as [p Hp]. rewrite Hp in H.
  apply has_byte_app_r in H. exact H.
Qed.

Lemma strip_line_has_byte (c : ascii) (line : string) :
  has_byte c line = false -> has_byte c (strip_line line) = false.
Proof.
  intros H. unfold strip_line.
  destruct (HasPrefix _ "title:");
    [apply TrimSpace_has_byte, slice_from_has_byte, TrimSpace_has_byte, H|].
  destruct (HasPrefix _ "body:");
    [apply TrimSpace_has_byte, slice_from_has_byte, TrimSpace_has_byte, H | exact H].
Qed.

Lemma Split_cons (s : string) (sep : ascii) :
  exists h t, Split s sep = h :: t.
Proof.
  induction s as [|d s [h [t IH]]]; simpl; [eauto|].
  destruct (Ascii.eqb d sep); [eauto|]. rewrite IH. eauto.
Qed.

Lemma Split_lines (s : string) (sep : ascii) :
  Forall (fun l => has_byte sep l = false) (Split s sep).
Proof.
  induction s as [|d s IH]; simpl.
  - constructor; [reflexivity | constructor].
  - destruct (Ascii.eqb d sep) eqn:E.
    + constructor; [reflexivity | exact IH].
    + destruct (Split s sep) as [|h t]; [repeat constructor; simpl|].
      * rewrite Ascii.eqb_sym, E. reflexivity.
      * inversion IH; subst. constructor; [|assumption].
        simpl. rewrite Ascii.eqb_sym, E. assumption.
Qed.

Lemma Split_app (x r : string) (sep : ascii) :
  has_byte sep x = false ->
  Split (x +:+ String sep r) sep = x :: Split r sep.
Proof.
  induction x as [|d x IH]; cbn [String.append has_byte Split]; intros H.
  - rewrite Ascii.eqb_refl. reflexivity.
  - apply orb_false_iff in H as [Hd Hx]. rewrite Ascii.eqb_sym, Hd, (IH Hx). reflexivity.
Qed.

Lemma Split_line (x : string) (sep : ascii) :
  has_byte sep x = false -> Split x sep = [x].
Proof.
  induction x as [|d x IH]; cbn [has_byte Split]; intros H; [reflexivity|].
  apply orb_false_iff in H as [Hd Hx]. rewrite Ascii.eqb_sym, Hd, (IH Hx). reflexivity.
Qed.

Lemma Split_Join (x : string) (l : list string) :
  Forall (fun l => has_byte LF l = false) (x :: l) ->
  Split (Join (x :: l) nl) LF = x :: l.
Proof.
  revert x. induction l as [|y l IH]; intros x H; inversion H; subst.
  - apply Split_line. assumption.
  - change (Join (x :: y :: l) nl) with (x +:+ nl +:+ Join (y :: l) nl).
    unfold nl at 1. cbn [String.append].
    rewrite Split_app by assumption. rewrite IH by assumption. reflexivity.
Qed.

Lemma Join_Split (s : string) : Join (Split s LF) nl = s.
Proof.
  induction s as [|d s IH]; [reflexivity|]. cbn [Split].
  destruct (Split_cons s LF) as [h [t Hs]]. rewrite Hs in *.
  destruct (Ascii.eqb_spec d LF) as [->|Hne].
  - change (Join ("" :: h :: t) nl) with ("" +:+ nl +:+ Join (h :: t) nl).
    rewrite IH. reflexivity.
  - destruct t as [|y t].
    + simpl in *. congruence.
    + change (Join (String d h :: y :: t) nl) with (String d (h +:+ nl +:+ Join (y :: t) nl)).
      change (Join (h :: y :: t) nl) with (h +:+ nl +:+ Join (y :: t) nl) in IH.
      congruence.
Qed.

Lemma fold_left_snoc {A B} (f : A -> B) (l : list A) (acc : list B) :
  fold_left (fun result x => result ++ [f x]) l acc = acc ++ map f l.
Proof.
  revert acc. induction l as [|x l IH]; intros acc; simpl.
  - rewrite app_nil_r. reflexivity.
  - rewrite IH, <- app_assoc. reflexivity.
Qed.

Lemma stripLabels_map (s : string) :
  stripLabels s = Join (map strip_line (Split s LF)) nl.
Proof. unfold stripLabels. rewrite fold_left_snoc. reflexivity. Qed.

Lemma strip_lines_has_byte (c : ascii) (l : list string) :
  Forall (fun x => has_byte c x = false) l ->
  Forall (fun x => has_byte c x = false) (map strip_line l).
Proof.
  induction 1 as [|x l Hx _ IH]; cbn [map]; constructor;
    [apply strip_line_has_byte, Hx | exact IH].
Qed.

(** Stripping keeps the line structure. *)
Lemma stripLabels_lines (s : string) :
  Split (stripLabels s) LF = map strip_line (Split s LF).
Proof.
  rewrite stripLabels_map.
  pose proof (Split_lines s LF) as H.
  destruct (Split_cons s LF) as [h [t Hs]]. rewrite Hs in *.
  cbn [map]. apply Split_Join.
  change (strip_line h :: map strip_line t) with (map strip_line (h :: t)).
  apply strip_lines_has_byte. exact H.
Qed.

(** ** The collaborators, as black boxes *)

Lemma dbg_inner b text : only inner (dbg b text).
Proof. destruct b; repeat constructor. Qed.

Lemma when_log_run (b : bool) (text : string) (st : State) :
  when b (log_Printf text) st
  = (Ret tt, mkState (fs st) (requests st) (trace st ++ dbg b text)).
Proof.
  destruct b; simpl; [reflexivity|]. unfold ret. rewrite app_nil_r.
  destruct st; reflexivity.
Qed.

Lemma ret_run {A} (a : A) (st : State) :
  ret a st = (Ret a, mkState (fs st) (requests st) (trace st ++ [])).
Proof. unfold ret. rewrite app_nil_r. destruct st; reflexivity. Qed.

Section Runs.
Context (env : Env).

Lemma close_body_run (resp : Response) (what : string) (st : State) :
  close_body resp what st
  = (Ret tt, mkState (fs st) (requests st) (trace st ++ close_events resp what)).
Proof.
  unfold close_body, close_events. destruct (CloseErr resp); [reflexivity|].
  apply ret_run.
Qed.

Lemma close_events_inner resp what : only inner (close_events resp what).
Proof. unfold close_events. destruct (CloseErr resp); repeat constructor. Qed.

(** [callOllama] always returns; it leaves the files alone and logs only
    its request and, at the end, its call. *)
Lemma callOllama_body_run (url : string) (req : OllamaReq) (st : State) :
  exists result n evs,
    callOllama_body env url req st
    = (Ret result, mkState (fs st) n (trace st ++ evs))
    /\ only inner evs
    /\ (forall c r, In (EvHttp c r) evs -> Timeout c = (60 * Second)%Z).
Proof.
  unfold callOllama_body.
  assert (Hnil : forall r : string * option error,
    exists result n evs,
      ret r st = (Ret result, mkState (fs st) n (trace st ++ evs))
      /\ only inner evs
      /\ (forall c r, In (EvHttp c r) evs -> Timeout c = (60 * Second)%Z)).
  { intros r. exists r, (requests st), []. split; [apply ret_run|].
    split; [constructor | intros ? ? []]. }
  destruct (json_Marshal env req); [apply Hnil|].
  destruct (http_NewRequest env "POST" url); [apply Hnil|].
  unfold bind, Do. cbn [fs requests trace].
  destruct (client_Do env (requests st) _ _) as [err|resp].
  - eexists _, _, _. split; [reflexivity|]. split; [repeat constructor|].
    intros c r [H|[]]. injection H as <- _. reflexivity.
  - set (st1 := mkState _ _ _).
    assert (exists res : string * option error,
      (if (400 <=? StatusCode resp)%Z
       then ret (EmptyString,
                 Some ("ollama error: status=" +:+ pretty (StatusCode resp)
                       +:+ " body=" +:+ Body resp))
       else match decode_stream (BodyValues resp) EmptyString with
            | inl result => ret (TrimSpace (cleanModelOutput result), None)
            | inr err => ret (EmptyString, Some err)
            end) st1 = (Ret res, st1)) as [res Hres].
    { destruct (400 <=? StatusCode resp)%Z; [eexists; reflexivity|].
      destruct (decode_stream _ _); eexists; reflexivity. }
    rewrite Hres, close_body_run. cbn [fs requests trace st1]. unfold ret.
    eexists res, _, (_ :: close_events resp "response body").
    split; [rewrite <- app_assoc; reflexivity|].
    split; [constructor; [reflexivity | apply close_events_inner]|].
    intros c r [H|H]; [injection H as <- _; reflexivity|].
    exfalso. unfold close_events in H.
    destruct (CloseErr resp); [destruct H as [H|[]]; discriminate | destruct H].
Qed.

Lemma callOllama_run (url : string) (req : OllamaReq) (st : State) :
  exists result n evs,
    callOllama env url req st
    = (Ret result,
       mkState (fs st) n (trace st ++ evs ++ [EvCallOllama url req result]))
    /\ only inner evs
    /\ (forall c r, In (EvHttp c r) evs -> Timeout c = (60 * Second)%Z).
Proof.
  destruct (callOllama_body_run url req st) as (result & n & evs & Hb & Hi & Ht).
  exists result, n, evs. split; [|split; assumption].
  unfold callOllama, bind. rewrite Hb. unfold emit, ret. cbn [fs requests trace].
  rewrite <- app_assoc. reflexivity.
Qed.

(** So does [checkOllama]. *)
Lemma checkOllama_run (url : string) (st : State) :
  exists result n evs,
    checkOllama env url st
    = (Ret result,
       mkState (fs st) n (trace st ++ evs ++ [EvCheckOllama url result]))
    /\ only inner evs.
Proof.
  assert (exists result n evs,
    checkOllama_body env url st
    = (Ret result, mkState (fs st) n (trace st ++ evs)) /\ only inner evs)
    as (result & n & evs & Hb & Hi).
  { unfold checkOllama_body. destruct (url_Parse env url).
    { eexists _, _, []. split; [apply ret_run | constructor]. }
    unfold bind, Do. cbn [fs requests trace].
    destruct (client_Do env (requests st) _ _) as [err|resp].
    { eexists _, _, _. split; [reflexivity | repeat constructor]. }
    set (st1 := mkState _ _ _).
    assert (exists res : option error,
      (if (400 <=? StatusCode resp)%Z
       then ret (Some ("ollama tags endpoint returned status "
                       +:+ pretty (StatusCode resp) +:+ ": "
                       +:+ TrimSpace (Body resp)))
       else ret None) st1 = (Ret res, st1)) as [res Hres].
    { destruct (400 <=? StatusCode resp)%Z; eexists; reflexivity. }
    rewrite Hres, close_body_run. cbn [fs requests trace st1]. unfold ret.
    eexists res, _, (_ :: close_events resp "tags response body").
    split; [rewrite <- app_assoc; reflexivity|].
    constructor; [reflexivity | apply close_events_inner]. }
  exists result, n, evs. split; [|assumption].
  unfold checkOllama, bind. rewrite Hb. unfold emit, ret. cbn [fs requests trace].
  rewrite <- app_assoc. reflexivity.
Qed.

(** [getStagedDiff] returns too, and sends no request. *)
Lemma getStagedDiff_run (st : State) :
  exists result evs,
    getStagedDiff env st
    = (Ret result,
       mkState (fs st) (requests st) (trace st ++ evs ++ [EvGetStagedDiff result]))
    /\ only inner evs.
Proof.
  assert (exists result evs,
    getStagedDiff_body env st
    = (Ret result, mkState (fs st) (requests st) (trace st ++ evs)) /\ only inner evs)
    as (result & evs & Hb & Hi).
  { unfold getStagedDiff_body, bind, CombinedOutput, bind, emit, ret.
    cbn [fs requests trace].
    destruct (exec_CombinedOutput env ["git"; "diff"; "--staged"]) as [out [err|]].
    { eexists _, _. split; [reflexivity | repeat constructor]. }
    destruct (String.eqb (TrimSpace out) EmptyString).
    - cbn [fs requests trace].
      destruct (exec_CombinedOutput env ["git"; "diff"]) as [out2 [err2|]];
        eexists _, [_; _]; (split; [rewrite <- app_assoc; reflexivity | repeat constructor]).
    - eexists _, _. split; [reflexivity | repeat constructor]. }
  exists result, evs. split; [|assumption].
  unfold getStagedDiff, bind. rewrite Hb. unfold emit, ret. cbn [fs requests trace].
  rewrite <- app_assoc. reflexivity.
Qed.
End Runs.

(** ** Symbolic execution of the monad *)

(** The equations that run a program one step further. *)
Lemma bind_bind {A B C} (m : M A) (f : A -> M B) (g : B -> M C) (st : State) :
  bind (bind m f) g st = bind m (fun a => bind (f a) g) st.
Proof. unfold bind. destruct (m st) as [[a|c] st']; reflexivity. Qed.

Lemma bind_ret {A B} (a : A) (k : A -> M B) (st : State) : bind (ret a) k st = k a st.
Proof. reflexivity. Qed.

Lemma bind_exit {A B} (c : Z) (k : A -> M B) (st : State) :
  bind (os_Exit c) k st = (Exit c, st).
Proof. reflexivity. Qed.

Lemma bind_emit {B} (e : Event) (k : unit -> M B) (st : State) :
  bind (emit e) k st = k tt (mkState (fs st) (requests st) (trace st ++ [e])).
Proof. reflexivity. Qed.

Lemma bind_when_log {B} (b : bool) (text : string) (k : unit -> M B) (st : State) :
  bind (when b (log_Printf text)) k st
  = k tt (mkState (fs st) (requests st) (trace st ++ dbg b text)).
Proof. unfold bind. rewrite when_log_run. reflexivity. Qed.

Lemma bind_run {A B} (m : M A) (k : A -> M B) (st st' : State) (a : A) :
  m st = (Ret a, st') -> bind m k st = k a st'.
Proof. unfold bind. intros ->. reflexivity. Qed.

Lemma bind_run_res {A B} (m : M A) (k : A -> M B) (st st' : State) (r : Res A) :
  m st = (r, st') ->
  bind m k st = match r with Ret a => k a st' | Exit c => (Exit c, st') end.
Proof. unfold bind. intros ->. destruct r; reflexivity. Qed.

(** What a test depends on: the value to split on. *)
Ltac scrut x :=
  lazymatch x with
  | match ?z with _ => _ end => scrut z
  | andb ?a _ => scrut a
  | negb ?a => scrut a
  | is_nil ?a => scrut a
  | _ => x
  end.

Ltac split_on x :=
  let y := scrut x in
  first [ is_var y; destruct y | destruct y eqn:?; try solve [exfalso; congruence] ];
  cbn [negb andb is_nil].

(** One step of [bind m k st], by the shape of [m]; the collaborators are
    stepped over by their run lemmas. *)
Ltac run_bind m :=
  lazymatch m with
  | bind _ _ => rewrite bind_bind
  | ret _ => rewrite bind_ret
  | os_Exit _ => rewrite bind_exit
  | emit _ => rewrite bind_emit
  | when _ (log_Printf _) => rewrite bind_when_log
  | statusf _ => unfold statusf at 1
  | eprint _ => unfold eprint at 1
  | println _ => unfold println at 1
  | log_Printf _ => unfold log_Printf at 1
  | if ?c then _ else _ => split_on c
  | match ?x with _ => _ end => split_on x
  | for_each _ _ _ => cbn [for_each]
  | summarize_attempt _ _ _ _ _ => unfold summarize_attempt at 1
  | os_ReadFile _ _ => unfold os_ReadFile at 1; unfold bind at 1
  | os_WriteFile _ _ _ => unfold os_WriteFile at 1; unfold bind at 1
  | os_Stat _ _ => unfold os_Stat at 1; unfold bind at 1
  | os_OpenFile _ _ => unfold os_OpenFile at 1; unfold bind at 1
  | WriteString _ _ _ => unfold WriteString at 1; unfold bind at 1
  | Close _ _ => unfold Close at 1; unfold bind at 1
  end.

Ltac run_step :=
  lazymatch goal with
  | |- context [bind (callOllama ?e ?u ?r) ?k ?s] =>
    let res := fresh "res" in let n := fresh "n" in
    let evs := fresh "evs" in let Hin := fresh "Hin" in let Heq := fresh "Heq" in
    destruct (callOllama_run e u r s) as (res & n & evs & Heq & Hin & _);
    rewrite (bind_run _ k _ _ _ Heq); clear Heq
  | |- context [bind (checkOllama ?e ?u) ?k ?s] =>
    let res := fresh "probe" in let n := fresh "n" in
    let evs := fresh "evs" in let Hin := fresh "Hin" in let Heq := fresh "Heq" in
    destruct (checkOllama_run e u s) as (res & n & evs & Heq & Hin);
    rewrite (bind_run _ k _ _ _ Heq); clear Heq
  | |- context [bind (getStagedDiff ?e) ?k ?s] =>
    let res := fresh "diff" in
    let evs := fresh "evs" in let Hin := fresh "Hin" in let Heq := fresh "Heq" in
    destruct (getStagedDiff_run e s) as (res & evs & Heq & Hin);
    rewrite (bind_run _ k _ _ _ Heq); clear Heq
  | |- context [bind ?m ?k ?s] => run_bind m
  | |- context [match ?x with _ => _ end] =>
    first [ progress cbn [fs_op lookup_err ret os_Exit] | split_on x ]
  | |- context [ret ?a ?s] => rewrite (ret_run a s)
  | |- context [log_Printf _ _] => unfold log_Printf, emit
  end;
  cbv beta; cbn [fs requests trace].

(** ** Observations *)

(** Selections skip the events of a class they are blind on. *)
Lemma select_app {A} (p : Event -> option A) (l1 l2 : list Event) :
  select p (l1 ++ l2) = select p l1 ++ select p l2.
Proof.
  induction l1 as [|e l1 IH]; simpl; [reflexivity|].
  destruct (p e); simpl; congruence.
Qed.

Lemma select_only {A} (p : Event -> option A) (K : Event -> bool) (l : list Event) :
  blind_on K p -> only K l -> select p l = [].
Proof.
  intros Hp. induction 1 as [|e l He _ IH]; simpl; [reflexivity|].
  rewrite (Hp e He). exact IH.
Qed.

Lemma select_only_app {A} (p : Event -> option A) (K : Event -> bool)
      (l rest : list Event) :
  blind_on K p -> only K l -> select p (l ++ rest) = select p rest.
Proof. intros Hp Hl. rewrite select_app, (select_only p K l Hp Hl). reflexivity. Qed.

Lemma before_print_quiet_app (K : Event -> bool) (l rest : list Event) :
  quiet K -> only K l -> before_print (l ++ rest) = l ++ before_print rest.
Proof.
  intros HK. induction 1 as [|e l He _ IH]; [reflexivity|]. simpl.
  destruct e; rewrite ?IH; try reflexivity. rewrite HK in He. discriminate.
Qed.

Lemma after_print_quiet_app (K : Event -> bool) (l rest : list Event) :
  quiet K -> only K l -> after_print (l ++ rest) = after_print rest.
Proof.
  intros HK. induction 1 as [|e l He _ IH]; [reflexivity|]. simpl.
  destruct e; rewrite ?IH; try reflexivity. rewrite HK in He. discriminate.
Qed.

Lemma before_print_quiet (K : Event -> bool) (l : list Event) :
  quiet K -> only K l -> before_print l = l.
Proof.
  intros HK H. rewrite <- (app_nil_r l) at 1.
  rewrite (before_print_quiet_app K l [] HK H). apply app_nil_r.
Qed.

Lemma after_print_quiet (K : Event -> bool) (l : list Event) :
  quiet K -> only K l -> after_print l = [].
Proof.
  intros HK H. rewrite <- (app_nil_r l). apply (after_print_quiet_app K l [] HK H).
Qed.

Ltac only_solve := first [assumption | apply dbg_inner].
Ltac blind_solve := intros [] ?; first [discriminate | reflexivity].
Ltac quiet_solve := intros ?; reflexivity.

(** The class of a black-box list of events. *)
Ltac class_of l :=
  lazymatch l with
  | dbg _ _ => constr:(inner)
  | _ => lazymatch goal with H : only ?K l |- _ => constr:(K) end
  end.

Ltac sel_step :=
  match goal with
  | |- context [before_print (?l ++ ?rest)] =>
    let K := class_of l in
    rewrite (before_print_quiet_app K l rest) by first [quiet_solve | only_solve]
  | |- context [after_print (?l ++ ?rest)] =>
    let K := class_of l in
    rewrite (after_print_quiet_app K l rest) by first [quiet_solve | only_solve]
  | |- context [before_print (dbg ?b ?t)] =>
    rewrite (before_print_quiet inner (dbg b t)) by first [quiet_solve | only_solve]
  | |- context [after_print (dbg ?b ?t)] =>
    rewrite (after_print_quiet inner (dbg b t)) by first [quiet_solve | only_solve]
  | |- context [select ?p (?l ++ ?rest)] =>
    let K := class_of l in
    first [ rewrite (select_only_app p K l rest) by first [blind_solve | only_solve]
          | rewrite (select_app p l rest) ]
  | |- context [select ?p (dbg ?b ?t)] =>
    rewrite (select_only p inner (dbg b t)) by first [blind_solve | only_solve]
  | H : only ?K ?l |- context [select ?p ?l] =>
    rewrite (select_only p K l) by first [blind_solve | exact H]
  end.

Ltac sel_simpl :=
  unfold probes, diffs, calls, fsops, stdout, stderr;
  cbn [select before_print after_print];
  repeat (sel_step; cbn [select before_print after_print]).

Lemma styleReq_eq (f : Flags) (sum : string) :
  mkOllamaReq (styleModel f) (stylePrompt (tone f) sum) false
              {[ "temperature" := Float64 9 10 ]} = styleReq f sum.
Proof. reflexivity. Qed.

Lemma summarizerReq_eq (f : Flags) (diff : string) :
  mkOllamaReq (summarizerModel f) (summaryPrompt diff) false
              {[ "temperature" := Float64 0 1 ]} = summarizerReq f diff.
Proof. reflexivity. Qed.

(** Symbolic execution of [m st] in a goal that mentions it. *)
Ltac run_in_goal m :=
  pattern m;
  match goal with |- ?P _ => let Q := fresh "Q" in set (Q := P) end.

(** At a leaf of the execution: the trace is put in right-nested form. *)
Ltac leaf_trace :=
  rewrite <- ?app_assoc; cbn [app]; rewrite ?styleReq_eq, ?summarizerReq_eq.

Tactic Notation "observe" constr(sel) "as" ident(Hname) :=
  lazymatch goal with
  | |- _ (_, mkState _ _ ?t) =>
    eassert (Hname : sel t = _) by (sel_simpl; reflexivity)
  end.

Tactic Notation "observe" constr(sel) "of" constr(part) "as" ident(Hname) :=
  lazymatch goal with
  | |- _ (_, mkState _ _ ?t) =>
    eassert (Hname : sel (part t) = _) by (sel_simpl; reflexivity)
  end.

Lemma dbg_hook b text : only hook_event (dbg b text).
Proof. destruct b; repeat constructor. Qed.

Ltac only_list :=
  repeat (apply List.Forall_cons; [reflexivity|]);
  first [apply List.Forall_nil | apply dbg_hook | apply dbg_inner].

(** ** The hook stage *)

Section Hook.
Context (env : Env).

(** The stage that writes the hook file, as a black box: what it logs, and
    which failure ends it with which code. *)
Lemma write_hook_run (f : Flags) (msg : string) (st : State) :
  exists r files n evs,
    write_hook env f msg st = (r, mkState files n (trace st ++ evs))
    /\ only hook_event evs
    /\ (forall p d e, In (OpOpenFile, p, d, Some e) (fsops evs) -> r = Exit 5%Z)
    /\ (forall p d e, In (OpWriteString, p, d, Some e) (fsops evs) -> r = Exit 6%Z)
    /\ (forall p d e, In (OpWriteFile, p, d, Some e) (fsops evs) -> r = Exit 7%Z)
    /\ (forall p d e, ~ In (OpReadFile, p, d, e) (fsops evs))
    /\ (forall code, r = Exit code -> In code [5; 6; 7]%Z).
Proof.
  run_in_goal (write_hook env f msg st). unfold write_hook.
  repeat run_step.
  all: leaf_trace.
  all: subst Q; cbv beta; eexists _, _, _, _; (split; [reflexivity|]).
  all: (split; [only_list|]).
  all: sel_simpl.
  all: (split; [|split; [|split; [|split]]]);
       [intros p d err H | intros p d err H | intros p d err H | intros p d err H
       | intros code H; first [discriminate H | injection H as <-; cbn; tauto]].
  all: cbn [In] in H;
       repeat (destruct H as [H|H]; [try discriminate H|]); try contradiction.
  all: reflexivity.
Qed.
(** The deferred close returns, whatever [Close] says. *)
Lemma close_hook_run (f : Flags) (opened : bool) (st : State) :
  exists evs,
    close_hook env f opened st
    = (Ret tt, mkState (fs st) (requests st) (trace st ++ evs))
    /\ only hook_event evs
    /\ (forall op p d e, In (op, p, d, e) (fsops evs) -> op = OpClose).
Proof.
  run_in_goal (close_hook env f opened st). unfold close_hook.
  repeat run_step.
  all: leaf_trace.
  all: subst Q; cbv beta; eexists; (split; [reflexivity|]).
  all: (split; [only_list|]).
  all: sel_simpl; intros op p d err H; cbn [In] in H;
       repeat (destruct H as [H|H]; [try congruence|]); try contradiction.
Qed.
End Hook.

Ltac hook_step :=
  lazymatch goal with
  | |- context [bind (write_hook ?e ?f ?m) ?k ?s] =>
    let r := fresh "hook" in let files := fresh "files" in let n := fresh "n" in
    let evs := fresh "hevs" in let Heq := fresh "Heq" in
    let Ho := fresh "Hhook" in let H5 := fresh "Hopen" in let H6 := fresh "Happend" in
    let H7 := fresh "Hover" in let Hn := fresh "Hnoread" in
    let Hc := fresh "Hcodes" in
    destruct (write_hook_run e f m s)
      as (r & files & n & evs & Heq & Ho & H5 & H6 & H7 & Hn & Hc);
    rewrite (bind_run_res _ k _ _ _ Heq); clear Heq;
    destruct r as [?opened|?code]
  | |- context [close_hook ?e ?f ?o ?s] =>
    let evs := fresh "cevs" in let Heq := fresh "Heq" in
    let Ho := fresh "Hclose" in let Hops := fresh "Hcloseops" in
    destruct (close_hook_run e f o s) as (evs & Heq & Ho & Hops);
    rewrite Heq; clear Heq
  end;
  cbv beta; cbn [fs requests trace].

Lemma is_summarizer_summarizerReq f d : is_summarizer (summarizerReq f d) = true.
Proof. vm_compute. reflexivity. Qed.
Lemma is_summarizer_styleReq f s : is_summarizer (styleReq f s) = false.
Proof. vm_compute. reflexivity. Qed.
Lemma is_styler_summarizerReq f d : is_styler (summarizerReq f d) = false.
Proof. vm_compute. reflexivity. Qed.
Lemma is_styler_styleReq f s : is_styler (styleReq f s) = true.
Proof. vm_compute. reflexivity. Qed.

(** C4.  In every run with a load path, [checkOllama] and [getStagedDiff]
    are never called and no summarizer request is sent.  When the file is
    read, the one call of the backend is the styler's, whose prompt holds
    the bytes of the file as they are; when reading fails (the file is
    missing or the read is made to fail), the backend is not called at all
    and the run ends with exit code 2. *)
Theorem load_path env f files :
  loadSummary f <> EmptyString ->
  let run := main env f (init files) in
  let evs := trace (snd run) in
  probes evs = [] /\ diffs evs = [] /\ summarizer_calls evs = [] /\
  match os_fault env OpReadFile (loadSummary f), files !! loadSummary f with
  | None, Some data =>
    exists result, calls evs = [(styleReq f data, result)]
  | _, _ => calls evs = [] /\ exit_code run = 2%Z
  end.
Proof.
  intros Hload run evs. subst evs run. unfold init.
  run_in_goal (main env f (mkState files 0 [])).
  unfold main, debug_flags, make_summary, load_summary, style.
  destruct (String.eqb_spec (loadSummary f) EmptyString) as [E|_]; [congruence|].
  cbn [negb].
  repeat first [hook_step | run_step].
  all: leaf_trace.
  all: observe probes as Hp; observe diffs as Hd; observe calls as Hc.
  all: subst Q; cbv beta; cbn [snd fst trace exit_code]; unfold summarizer_calls;
       rewrite Hp, Hd, Hc.
  all: split; [reflexivity|split; [reflexivity|]].
  all: cbn [List.filter fst]; rewrite ?is_summarizer_styleReq.
  all: split; [reflexivity|].
  all: first [split; reflexivity | eexists; reflexivity].
Qed.

(** The summarizer stage of a run without a load path. *)
Lemma summarizer_stage env f files diff :
  loadSummary f = EmptyString ->
  let run := main env f (init files) in
  let evs := trace (snd run) in
  probes evs = [None] -> diffs evs = [(diff, None)] ->
  exists r1 r2 rest,
    calls evs = (summarizerReq f diff, r1) :: (summarizerReq f diff, r2) :: rest /\
    List.length (summarizer_calls evs) = 2 /\
    match snd r2 with
    | Some _ => rest = [] /\ exit_code run = 3%Z
    | None =>
      (exists r3, rest = [(styleReq f (fst r2), r3)]) /\
      exit_code run <> 3%Z /\
      (saveSummary f <> EmptyString ->
       exists err, fsops (before_print evs)
                   = [(OpWriteFile, saveSummary f, fst r2, err)])
    end.
Proof.
  intros Hload run evs. subst evs run. unfold init.
  run_in_goal (main env f (mkState files 0 [])).
  unfold main, debug_flags, make_summary, load_summary, style.
  rewrite Hload. cbn [String.eqb negb].
  repeat first [hook_step | run_step].
  all: leaf_trace.
  all: observe probes as Hp; observe diffs as Hd; observe calls as Hc;
       observe fsops of before_print as Hf.
  all: subst Q; cbv beta; cbn [snd fst trace exit_code]; unfold summarizer_calls;
       rewrite Hp, Hd, Hc, Hf; clear Hp Hd Hc Hf.
  all: intros Hp Hd; try discriminate Hp; try discriminate Hd.
  all: injection Hd as <-.
  all: eexists _, _, _; (split; [reflexivity|]).
  all: cbn [List.filter fst snd];
       rewrite ?is_summarizer_summarizerReq, ?is_summarizer_styleReq.
  all: (split; [reflexivity|]).
  all: cbn [snd fst].
  all: try (split; reflexivity).
  all: split; [eexists; reflexivity|].
  all: split;
       [ first [ discriminate
               | intros ->;
                 match goal with
                 | Hx : forall code, Exit ?c = Exit code -> _ |- _ =>
                   specialize (Hx _ eq_refl); cbn [In] in Hx;
                   decompose [or] Hx; try discriminate; assumption
                 end ] |].
  all: intros Hs; try (eexists; reflexivity).
  all: exfalso; apply Hs; apply String.eqb_eq; assumption.
Qed.

(** ** Exit codes *)

(** Membership in an observation, case by case. *)
Ltac in_cases H :=
  repeat first
    [ lazymatch type of H with
      | In _ (_ ++ _) => apply in_app_or in H; destruct H as [H|H]
      | In _ (_ :: _) => destruct H as [H|H]
      | In _ [] => destruct H
      end ].

Ltac hook_facts H :=
  try match goal with
      | Hx : forall p d e, In (_, p, d, Some e) (fsops ?l) -> _ |- _ =>
        match type of H with In _ (select _ l) => apply Hx in H end
      | Hx : forall p d e, ~ In (OpReadFile, p, d, e) (fsops ?l) |- _ =>
        match type of H with In _ (select _ l) => apply Hx in H; destruct H end
      | Hx : forall op p d e, In (op, p, d, e) (fsops ?l) -> op = OpClose |- _ =>
        match type of H with In _ (select _ l) => apply Hx in H end
      end.

Ltac close_case H :=
  in_cases H; hook_facts H;
  first [ reflexivity | discriminate H | congruence
        | injection H as H; congruence ].

(** C5.  In every run: a failed probe ends the run with exit code 1; a
    failed diff, or a failed read of the summary file, with 2; summarizer
    calls that all failed, with 3; a failed styler call, with 4; a failure
    to open the hook file, with 5; to append to it, with 6; to write it
    anew, with 7.  A failure to save the summary ends nothing: the warning
    is printed on standard error and the styler is called. *)
Theorem exit_codes env f files :
  let run := main env f (init files) in
  let evs := trace (snd run) in
  (forall e, In (Some e) (probes evs) -> exit_code run = 1%Z) /\
  (forall out e, In (out, Some e) (diffs evs) -> exit_code run = 2%Z) /\
  (forall p d e, In (OpReadFile, p, d, Some e) (fsops evs) -> exit_code run = 2%Z) /\
  (summarizer_calls evs <> [] -> forallb failed (summarizer_calls evs) = true ->
   exit_code run = 3%Z) /\
  (forall req s e, In (req, (s, Some e)) (calls evs) -> is_styler req = true ->
                   exit_code run = 4%Z) /\
  (forall p d e, In (OpOpenFile, p, d, Some e) (fsops evs) -> exit_code run = 5%Z) /\
  (forall p d e, In (OpWriteString, p, d, Some e) (fsops evs) -> exit_code run = 6%Z) /\
  (forall p d e, In (OpWriteFile, p, d, Some e) (fsops (after_print evs)) ->
                 exit_code run = 7%Z) /\
  (forall p d e, In (OpWriteFile, p, d, Some e) (fsops (before_print evs)) ->
                 In ("Warning: failed to save summary: " +:+ e +:+ nl) (stderr evs) /\
                 exists c, In c (calls evs) /\ is_styler (fst c) = true).
Proof.
  intros run evs. subst evs run. unfold init.
  run_in_goal (main env f (mkState files 0 [])).
  unfold main, debug_flags, make_summary, load_summary, style.
  repeat first [hook_step | run_step].
  all: leaf_trace.
  all: observe probes as Hp; observe diffs as Hd; observe calls as Hc;
       observe fsops as Hf; observe fsops of before_print as Hfb;
       observe fsops of after_print as Hfa; observe stderr as He.
  all: subst Q; cbv beta; cbn [snd fst trace exit_code]; unfold summarizer_calls;
       rewrite Hp, Hd, Hc, Hf, Hfb, Hfa, He; clear Hp Hd Hc Hf Hfb Hfa He.
  all: cbn [List.filter fst snd];
       rewrite ?is_summarizer_summarizerReq, ?is_summarizer_styleReq;
       cbn [forallb failed is_nil negb andb fst snd].
  all: split; [intros ? H; close_case H|].
  all: split; [intros ? ? H; close_case H|].
  all: split; [intros ? ? ? H; close_case H|].
  all: split; [intros H1 H2; first [reflexivity | discriminate H2 | congruence]|].
  all: split; [intros ? ? ? H Hs; in_cases H;
               first [reflexivity
                     | injection H as <- _; rewrite is_styler_summarizerReq in Hs;
                       discriminate Hs
                     | congruence ]|].
  all: split; [intros ? ? ? H; close_case H|].
  all: split; [intros ? ? ? H; close_case H|].
  all: split; [intros ? ? ? H; close_case H|].
  all: intros ? ? ? H; in_cases H; try discriminate H.
  all: injection H as <- <- <-.
  all: split; [repeat first [left; reflexivity | right]|].
  all: apply existsb_exists; cbn [existsb fst];
       rewrite is_styler_styleReq, ?orb_true_r; reflexivity.
Qed.

(** ** The message sink *)

(** C6.  With an empty hook path nothing happens.  Otherwise, when no
    operation on the hook file is made to fail: if the file exists and
    [forceWrite] is off, it holds afterwards its former bytes, then the
    delimiter and the message with a newline; if it does not exist, or
    [forceWrite] is on, it holds the message with a newline and nothing
    else.  The other files are as before. *)
Theorem message_sink env f msg st :
  let run := write_hook env f msg st in
  (hookFile f = EmptyString -> run = (Ret false, st)) /\
  (hookFile f <> EmptyString -> no_fault env (hookFile f) ->
   exists opened, fst run = Ret opened /\
     requests (snd run) = requests st /\
     fs (snd run) =
       match fs st !! hookFile f, forceWrite f with
       | Some old, false =>
         <[hookFile f := old +:+ hookDelimiter +:+ msg +:+ nl]> (fs st)
       | _, _ => <[hookFile f := msg +:+ nl]> (fs st)
       end).
Proof.
  intros run. subst run. split.
  - intros H. unfold write_hook. rewrite H. reflexivity.
  - intros Hne Hok. unfold write_hook.
    destruct (String.eqb_spec (hookFile f) EmptyString) as [|_]; [contradiction|].
    cbn [negb].
    unfold bind, statusf, eprint, emit, os_Stat, os_OpenFile, WriteString,
      os_WriteFile, fs_op, lookup_err, when, ret.
    rewrite !Hok.
    destruct (forceWrite f), (fs st !! hookFile f) eqn:E;
      repeat (progress (rewrite ?Hok, ?E;
                        cbn [fs requests trace is_nil negb andb fst snd default]));
      eexists; repeat split; reflexivity.
Qed.

(** ** The backend client *)

(** The decoding loop appends the fragments to what it holds. *)
Lemma decode_stream_app os tail acc :
  decode_stream (map inl os ++ tail) acc = decode_stream tail (acc +:+ fragments os).
Proof.
  revert acc. induction os as [|o os IH]; intros acc; cbn [map app decode_stream fragments fold_right].
  - now rewrite append_nil_r.
  - rewrite IH. fold (fragments os). now rewrite append_assoc.
Qed.

Lemma decode_stream_same vs ws acc :
  Forall2 same_text vs ws -> decode_stream vs acc = decode_stream ws acc.
Proof.
  intros H. revert acc. induction H as [|v w vs ws Hvw _ IH]; intros acc; [reflexivity|].
  destruct v as [a|e], w as [b|e']; cbn in Hvw; try contradiction; cbn [decode_stream].
  - rewrite Hvw. apply IH.
  - now subst.
Qed.

(** What [callOllama] returns when its POST is answered below 400. *)
Lemma callOllama_answered env st url req resp :
  answered env st url req resp ->
  fst (callOllama env url req st) =
  Ret match decode_stream (BodyValues resp) EmptyString with
      | inr err => (EmptyString, Some err)
      | inl result => (TrimSpace (cleanModelOutput result), None)
      end.
Proof.
  intros (Hm & Hn & Hd & Hs).
  unfold callOllama, callOllama_body. rewrite Hm, Hn.
  unfold bind at 1. unfold bind at 1. unfold Do. rewrite Hd.
  destruct (Z.leb_spec 400 (StatusCode resp)) as [|_]; [lia|].
  unfold close_body.
  destruct (decode_stream (BodyValues resp) EmptyString), (CloseErr resp); reflexivity.
Qed.

(** C8.  When the POST is answered with a status below 400: the decoding
    loop gives the fragments of the chunks joined in the order of arrival,
    and [callOllama] returns that text, cleaned; if one [Decode] fails,
    after any number of chunks, [callOllama] returns the decode error.  The
    chunks "ab" and "cd" give "abcd". *)
Theorem stream_concatenated env st url req resp os :
  answered env st url req resp ->
  decode_stream (map inl os) EmptyString = inl (fragments os) /\
  (BodyValues resp = map inl os ->
   fst (callOllama env url req st)
   = Ret (TrimSpace (cleanModelOutput (fragments os)), None)) /\
  (forall err rest, BodyValues resp = map inl os ++ inr err :: rest ->
   fst (callOllama env url req st)
   = Ret (EmptyString, Some ("failed to decode response: " +:+ err))) /\
  decode_stream [inl (chunk "ab" false); inl (chunk "cd" true)] EmptyString
  = inl "abcd".
Proof.
  intros H.
  assert (Hos : forall tail, decode_stream (map inl os ++ tail) EmptyString
                             = decode_stream tail (fragments os))
    by (intros tail; apply decode_stream_app).
  split; [|split; [|split]].
  - specialize (Hos []). now rewrite app_nil_r in Hos.
  - intros Hb. rewrite (callOllama_answered _ _ _ _ _ H), Hb.
    specialize (Hos []). rewrite app_nil_r in Hos. now rewrite Hos.
  - intros err rest Hb. rewrite (callOllama_answered _ _ _ _ _ H), Hb, Hos. reflexivity.
  - reflexivity.
Qed.

(** C10.  The [done] flag plays no part: two streams with the same
    fragments and errors are decoded alike, whatever their flags, and the
    fragments of the chunks that come after a chunk with [done] set are
    part of the text that [callOllama] returns. *)
Theorem done_flag_ignored env st url req resp os1 o os2 vs :
  answered env st url req resp ->
  resp_Done o = true ->
  (Forall2 same_text (BodyValues resp) vs ->
   decode_stream (BodyValues resp) EmptyString = decode_stream vs EmptyString) /\
  (BodyValues resp = map inl (os1 ++ o :: os2) ->
   fst (callOllama env url req st)
   = Ret (TrimSpace (cleanModelOutput
                       (fragments os1 +:+ resp_Response o +:+ fragments os2)), None)).
Proof.
  intros H _. split.
  - apply decode_stream_same.
  - intros Hb. rewrite (callOllama_answered _ _ _ _ _ H), Hb.
    rewrite <- (app_nil_r (map inl _)), decode_stream_app.
    cbn [decode_stream String.append].
    replace (fragments (os1 ++ o :: os2))
      with (fragments os1 +:+ resp_Response o +:+ fragments os2); [reflexivity|].
    clear. induction os1 as [|a l IH]; cbn [app fragments fold_right]; [reflexivity|].
    fold (fragments (l ++ o :: os2)). fold (fragments l). rewrite <- IH.
    now rewrite append_assoc.
Qed.

(** The requests of [callOllama]: one, when the request is built. *)
Lemma timeouts_of_callOllama env url req st :
  timeouts (trace (snd (callOllama env url req st)))
  = timeouts (trace st)
    ++ (if is_nil (json_Marshal env req) && is_nil (http_NewRequest env "POST" url)
        then [(60 * Second)%Z] else []).
Proof.
  unfold callOllama, callOllama_body, timeouts.
  unfold bind, Do, close_body, ret, log_Printf, emit.
  destruct (json_Marshal env req), (http_NewRequest env "POST" url);
    cbn [is_nil andb];
    [| | |destruct (client_Do env (requests st) _ _) as [err|resp];
          [|destruct (400 <=? StatusCode resp)%Z,
              (decode_stream (BodyValues resp) EmptyString), (CloseErr resp)]];
    cbn [trace snd fst fs requests]; rewrite !select_app; cbn [select];
    rewrite ?app_nil_r; reflexivity.
Qed.

(** C3.  Whatever the URL and the request, [callOllama] sends its POST
    through a client whose timeout is 60 seconds, never 300: the timeout is
    a constant of the function, which no argument changes. *)
Theorem callOllama_timeout env url req files :
  let evs := trace (snd (callOllama env url req (init files))) in
  Forall (fun t => t = (60 * Second)%Z) (timeouts evs) /\
  ~ In (300 * Second)%Z (timeouts evs) /\
  (json_Marshal env req = None -> http_NewRequest env "POST" url = None ->
   timeouts evs = [(60 * Second)%Z]).
Proof.
  intros evs. subst evs. rewrite timeouts_of_callOllama. cbn [init trace timeouts select app].
  destruct (json_Marshal env req), (http_NewRequest env "POST" url); cbn [is_nil andb];
    (split; [repeat (apply List.Forall_cons; [reflexivity|]); apply List.Forall_nil|]);
    (split; [|intros H1 H2; first [reflexivity | discriminate]]);
    cbn [In]; intros H; repeat (destruct H as [H|H]; [discriminate H|]); exact H.
Qed.

(** ** The retry loop *)

(** C9.  In every run without a load path whose probe and diff succeed,
    the summarizer request is sent exactly twice, the first two calls of
    the backend; when the second call succeeds, its result and not the
    first's is the summary that is saved and that the styler's prompt
    holds. *)
Theorem summarizer_twice env f files diff :
  loadSummary f = EmptyString ->
  let run := main env f (init files) in
  let evs := trace (snd run) in
  probes evs = [None] -> diffs evs = [(diff, None)] ->
  exists r1 r2 rest,
    calls evs = (summarizerReq f diff, r1) :: (summarizerReq f diff, r2) :: rest /\
    List.length (summarizer_calls evs) = 2 /\
    match snd r2 with
    | Some _ => rest = [] /\ exit_code run = 3%Z
    | None =>
      (exists r3, rest = [(styleReq f (fst r2), r3)]) /\
      (saveSummary f <> EmptyString ->
       exists err, fsops (before_print evs)
                   = [(OpWriteFile, saveSummary f, fst r2, err)])
    end.
Proof.
  intros Hload run evs Hp Hd.
  destruct (summarizer_stage env f files diff Hload Hp Hd)
    as (r1 & r2 & rest & Hc & Hn & H).
  exists r1, r2, rest. split; [exact Hc|]. split; [exact Hn|].
  destruct (snd r2); [exact H|]. destruct H as (H1 & _ & H2). now split.
Qed.

(** C1.  What the loop does: in every run that reaches the summarizer,
    the run ends with exit code 3 exactly when the second call fails,
    whatever the first returned; a first call that succeeded is lost when
    the second fails. *)
Theorem retry_keeps_last env f files diff :
  loadSummary f = EmptyString ->
  let run := main env f (init files) in
  let evs := trace (snd run) in
  probes evs = [None] -> diffs evs = [(diff, None)] ->
  exists r1 r2 rest,
    calls evs = (summarizerReq f diff, r1) :: (summarizerReq f diff, r2) :: rest /\
    (exit_code run = 3%Z <-> snd r2 <> None) /\
    (snd r1 = None -> snd r2 <> None -> exit_code run = 3%Z /\ rest = []).
Proof.
  intros Hload run evs Hp Hd.
  destruct (summarizer_stage env f files diff Hload Hp Hd)
    as (r1 & r2 & rest & Hc & _ & H).
  exists r1, r2, rest. split; [exact Hc|].
  destruct (snd r2) as [e|].
  - destruct H as [-> H]. repeat split; auto; discriminate.
  - destruct H as (_ & H & _). split; [|congruence].
    split; [intros E; contradiction | congruence].
Qed.

(** ** Label stripping, and the examples *)

(** C7.  The lines of [stripLabels s] are the lines of [s], each one
    stripped on its own: a line that starts, after trimming, with "title:"
    or "body:" in any mix of ASCII cases becomes what follows the label,
    trimmed; a line whose first six bytes after trimming are ASCII and that
    has no such label is kept as it is.  The example of the specification
    holds.  A label written with U+0130 for its "i" matches as well, and
    there the six bytes removed fall short of the label. *)
Theorem label_stripping (s : string) :
  Split (stripLabels s) LF = map strip_line (Split s LF) /\
  (forall line l rest,
      TrimSpace line = l +:+ rest -> lower_ascii l = "title:" ->
      strip_line line = TrimSpace rest) /\
  (forall line l rest,
      TrimSpace line = l +:+ rest -> lower_ascii l = "body:" ->
      strip_line line = TrimSpace rest) /\
  (forall line,
      is_ascii (first_bytes 6 (TrimSpace line)) = true ->
      ~ labelled "title:" (TrimSpace line) -> ~ labelled "body:" (TrimSpace line) ->
      strip_line line = line) /\
  stripLabels ("Title: Fix bug" +:+ nl +:+ "Body: details" +:+ nl +:+ "Extra: info")
  = "Fix bug" +:+ nl +:+ "details" +:+ nl +:+ "Extra: info" /\
  stripLabels ("T" +:+ dotted_I +:+ "tle: Fix bug") = ": Fix bug".
Proof.
  split; [apply stripLabels_lines|].
  split; [intros line l rest; apply strip_line_title|].
  split; [intros line l rest; apply strip_line_body|].
  split; [apply strip_line_other|].
  split; vm_compute; reflexivity.
Qed.

(** ** The normalizer on examples *)

(** The two examples of the specification: a quoted text with an escaped
    newline, and a fenced block. *)
Example cleanModelOutput_quoted :
  cleanModelOutput (String DQUOTE ("hello" +:+ String BACKSLASH "nworld")
                    +:+ String DQUOTE EmptyString)
  = "hello" +:+ nl +:+ "world".
Proof. vm_compute. reflexivity. Qed.

Example cleanModelOutput_fenced : cleanModelOutput fenced = "func f(){}".
Proof. vm_compute. reflexivity. Qed.



(** ** Example runs *)

(** A run that loads its summary sends one request, the styler's. *)
Lemma load_path_witness :
  loadSummary flags_load <> EmptyString /\
  probes (trace (snd (main (world [ok [chunk "Arr" true]]) flags_load (init saved)))) = [] /\
  exit_code (main (world [ok [chunk "Arr" true]]) flags_load (init saved)) = 0%Z.
Proof.
  split; [discriminate|].
  split; [|vm_compute; reflexivity].
  apply (load_path (world [ok [chunk "Arr" true]]) flags_load saved). discriminate.
Defined.

(** A run where every call is answered: the summarizer is called twice. *)
Lemma summarizer_twice_witness :
  loadSummary flags0 = EmptyString /\
  probes (trace (snd (main world_twice flags0 (init ∅)))) = [None] /\
  diffs (trace (snd (main world_twice flags0 (init ∅)))) = [(diff0, None)] /\
  exists r1 r2 rest,
    calls (trace (snd (main world_twice flags0 (init ∅))))
    = (summarizerReq flags0 diff0, r1) :: (summarizerReq flags0 diff0, r2) :: rest.
Proof.
  split; [reflexivity|]. split; [vm_compute; reflexivity|].
  split; [vm_compute; reflexivity|].
  destruct (summarizer_twice world_twice flags0 ∅ diff0) as (r1 & r2 & rest & H & _);
    [reflexivity | vm_compute; reflexivity | vm_compute; reflexivity |].
  exists r1, r2, rest. exact H.
Defined.

(** The run where the first attempt succeeds and the second fails. *)
Lemma retry_keeps_last_witness :
  loadSummary flags0 = EmptyString /\
  probes (trace (snd (main world_retry flags0 (init ∅)))) = [None] /\
  diffs (trace (snd (main world_retry flags0 (init ∅)))) = [(diff0, None)] /\
  exists r1 r2 rest,
    calls (trace (snd (main world_retry flags0 (init ∅))))
    = (summarizerReq flags0 diff0, r1) :: (summarizerReq flags0 diff0, r2) :: rest /\
    (exit_code (main world_retry flags0 (init ∅)) = 3%Z <-> snd r2 <> None).
Proof.
  split; [reflexivity|]. split; [vm_compute; reflexivity|].
  split; [vm_compute; reflexivity|].
  destruct (retry_keeps_last world_retry flags0 ∅ diff0)
    as (r1 & r2 & rest & H & H3 & _);
    [reflexivity | vm_compute; reflexivity | vm_compute; reflexivity |].
  exists r1, r2, rest. split; [exact H | exact H3].
Defined.

(** That run in full: the summary of the first attempt is received, the
    second attempt fails, and the run ends with exit code 3 before
    anything is printed on standard output. *)
Lemma first_success_lost :
  calls (trace (snd (main world_retry flags0 (init ∅))))
  = [(summarizerReq flags0 diff0, ("Fix bug", None));
     (summarizerReq flags0 diff0, (EmptyString, Some "context deadline exceeded"))] /\
  exit_code (main world_retry flags0 (init ∅)) = 3%Z /\
  stdout (trace (snd (main world_retry flags0 (init ∅)))) = [] /\
  In ("[status] Summary received (attempt 1)" +:+ nl)
     (stderr (trace (snd (main world_retry flags0 (init ∅))))) /\
  In ("Summarizer error: context deadline exceeded" +:+ nl)
     (stderr (trace (snd (main world_retry flags0 (init ∅))))).
Proof. vm_compute. repeat split; tauto. Qed.

(** ** Example streams *)

(** The stream of the chunks [ab] and [cd]. *)
Lemma stream_concatenated_witness :
  answered (world [inr resp_abcd]) (init ∅) defaultOllamaURL req0 resp_abcd /\
  fst (callOllama (world [inr resp_abcd]) defaultOllamaURL req0 (init ∅))
  = Ret ("abcd", None).
Proof.
  assert (H : answered (world [inr resp_abcd]) (init ∅) defaultOllamaURL req0 resp_abcd)
    by (repeat split; reflexivity).
  split; [exact H|].
  apply (stream_concatenated (world [inr resp_abcd]) (init ∅) defaultOllamaURL req0
                             resp_abcd [chunk "ab" false; chunk "cd" true] H).
  reflexivity.
Defined.

(** The chunk [ef] comes after the chunk flagged as the last, and is kept. *)
Lemma done_flag_ignored_witness :
  answered (world [inr resp_late]) (init ∅) defaultOllamaURL req0 resp_late /\
  resp_Done (chunk "cd" true) = true /\
  fst (callOllama (world [inr resp_late]) defaultOllamaURL req0 (init ∅))
  = Ret ("abcdef", None).
Proof.
  assert (H : answered (world [inr resp_late]) (init ∅) defaultOllamaURL req0 resp_late)
    by (repeat split; reflexivity).
  split; [exact H|]. split; [reflexivity|].
  apply (done_flag_ignored (world [inr resp_late]) (init ∅) defaultOllamaURL req0
                           resp_late [chunk "ab" false] (chunk "cd" true)
                           [chunk "ef" false] [] H eq_refl).
  reflexivity.
Defined.

(** ** Example hook files *)

(** Appending to, overwriting and creating the hook file. *)
Lemma message_sink_witness :
  fs (snd (write_hook (world []) (flags_hook false) "Fix bug" (init edited)))
  = {[ "COMMIT_EDITMSG" :=
         "# edit me" +:+ nl +:+ nl +:+ "# Suggested commit message (auto-generated):"
         +:+ nl +:+ "Fix bug" +:+ nl ]} /\
  fs (snd (write_hook (world []) (flags_hook true) "Fix bug" (init edited)))
  = {[ "COMMIT_EDITMSG" := "Fix bug" +:+ nl ]} /\
  fs (snd (write_hook (world []) (flags_hook false) "Fix bug" (init ∅)))
  = {[ "COMMIT_EDITMSG" := "Fix bug" +:+ nl ]}.
Proof.
  split; [|split].
  - destruct (proj2 (message_sink (world []) (flags_hook false) "Fix bug" (init edited)))
      as (o & _ & _ & H); [discriminate | intros op; reflexivity |].
    rewrite H. vm_compute. reflexivity.
  - destruct (proj2 (message_sink (world []) (flags_hook true) "Fix bug" (init edited)))
      as (o & _ & _ & H); [discriminate | intros op; reflexivity |].
    rewrite H. vm_compute. reflexivity.
  - destruct (proj2 (message_sink (world []) (flags_hook false) "Fix bug" (init ∅)))
      as (o & _ & _ & H); [discriminate | intros op; reflexivity |].
    rewrite H. vm_compute. reflexivity.
Defined.

(** * Further properties of the code *)

(** ** [stripLabels]: lengths *)

Lemma TrimLeft_length (s : string) : String.length (TrimLeft s) <= String.length s.
Proof. apply trim_left_from_length. Qed.

Lemma TrimRight_length (s : string) : String.length (TrimRight s) <= String.length s.
Proof.
  destruct (TrimRight_prefix s) as (w & Hw & _).
  rewrite Hw at 2. rewrite length_append. lia.
Qed.

Lemma TrimSpace_length (s : string) : String.length (TrimSpace s) <= String.length s.
Proof.
  unfold TrimSpace. pose proof (TrimRight_length (TrimLeft s)).
  pose proof (TrimLeft_length s). lia.
Qed.

Lemma slice_from_length (n : nat) (s : string) :
  String.length (slice_from n s) <= String.length s.
Proof.
  destruct (slice_from_suffix n s) as [p Hp]. rewrite Hp at 2.
  rewrite length_append. lia.
Qed.

Lemma strip_line_length (line : string) :
  String.length (strip_line line) <= String.length line.
Proof.
  unfold strip_line.
  pose proof (TrimSpace_length line) as Ht.
  pose proof (TrimSpace_length (slice_from 6 (TrimSpace line))) as H6.
  pose proof (slice_from_length 6 (TrimSpace line)) as S6.
  pose proof (TrimSpace_length (slice_from 5 (TrimSpace line))) as H5.
  pose proof (slice_from_length 5 (TrimSpace line)) as S5.
  destruct (HasPrefix _ "title:"); [lia|].
  destruct (HasPrefix _ "body:"); lia.
Qed.

Lemma Join_cons2 (x y : string) (l : list string) (sep : string) :
  Join (x :: y :: l) sep = x +:+ sep +:+ Join (y :: l) sep.
Proof. reflexivity. Qed.

Lemma Join_map_length (g : string -> string) (l : list string) (sep : string) :
  (forall x, String.length (g x) <= String.length x) ->
  String.length (Join (map g l) sep) <= String.length (Join l sep).
Proof.
  intros Hg. induction l as [|x l IH]; [reflexivity|].
  destruct l as [|y l]; [apply Hg|].
  change (map g (x :: y :: l)) with (g x :: g y :: map g l).
  change (map g (y :: l)) with (g y :: map g l) in IH.
  rewrite !Join_cons2, !length_append. specialize (Hg x). lia.
Qed.

(** X3.  Stripping the labels never makes a message longer. *)
Theorem stripLabels_length (s : string) :
  String.length (stripLabels s) <= String.length s.
Proof.
  rewrite stripLabels_map.
  rewrite <- (Join_Split s) at 2.
  apply Join_map_length, strip_line_length.
Qed.

(** ** [stripLabels]: text without labels *)

Lemma strip_line_unlabelled (line : string) :
  has_label line = false -> strip_line line = line.
Proof.
  unfold has_label, strip_line. intros H. apply orb_false_iff in H as [-> ->].
  reflexivity.
Qed.

(** X4.  A message none of whose lines passes the label test of
    [stripLabels] comes back byte for byte: the lines are split and joined
    again without loss. *)
Theorem stripLabels_unlabelled (s : string) :
  forallb (fun line => negb (has_label line)) (Split s LF) = true ->
  stripLabels s = s.
Proof.
  intros H. rewrite stripLabels_map.
  rewrite <- (Join_Split s) at 2. f_equal.
  induction (Split s LF) as [|x l IH]; [reflexivity|].
  cbn [forallb map] in *. apply andb_true_iff in H as [Hx Hl].
  rewrite strip_line_unlabelled by (now destruct (has_label x)).
  now rewrite IH.
Qed.

(** A message with no label at the start of a line. *)
Lemma stripLabels_unlabelled_witness :
  forallb (fun line => negb (has_label line)) (Split unlabelled_message LF) = true /\
  stripLabels unlabelled_message = unlabelled_message.
Proof.
  split; [vm_compute; reflexivity|].
  apply (stripLabels_unlabelled unlabelled_message). vm_compute. reflexivity.
Defined.

(** ** [cleanModelOutput]: text that needs no cleaning *)

Lemma MatchString_no_fence (s : string) :
  Contains s fence = false -> fenceRe.MatchString s = false.
Proof.
  intros H. destruct (fenceRe.MatchString s) eqn:E; [|reflexivity].
  apply MatchString_fence in E. congruence.
Qed.

(** X2.  A text that, once trimmed, holds no fence marker and no CR-LF
    pair, and that is not in quotes or is in quotes that [strconv.Unquote]
    refuses, is only trimmed by [cleanModelOutput]. *)
Theorem cleanModelOutput_plain (s : string) :
  Contains (TrimSpace s) fence = false ->
  Contains (TrimSpace s) crlf = false ->
  strconv.Unquote (TrimSpace s) = None
  \/ (quoted_with DQUOTE (TrimSpace s) || quoted_with SQUOTE (TrimSpace s)) = false ->
  cleanModelOutput s = TrimSpace s.
Proof.
  intros Hf Hc Hq. unfold cleanModelOutput.
  set (t := TrimSpace s) in *.
  assert (Hu : (if (2 <=? String.length t)%nat
                   && (quoted_with DQUOTE t || quoted_with SQUOTE t)
                then match strconv.Unquote t with Some unq => unq | None => t end
                else t) = t).
  { destruct Hq as [-> | ->]; [|rewrite andb_false_r]; [|reflexivity].
    destruct (_ && _); reflexivity. }
  rewrite Hu, (MatchString_no_fence t Hf).
  unfold fence in *. rewrite (ReplaceAll_absent t _ _ _ Hf).
  unfold crlf in *. rewrite (ReplaceAll_absent t _ _ _ Hc).
  apply TrimSpace_idem.
Qed.

(** Words in single quotes are no Go literal: the quotes stay. *)
Lemma cleanModelOutput_plain_witness :
  strconv.Unquote (TrimSpace single_quoted) = None /\
  cleanModelOutput single_quoted = "'hello world'".
Proof.
  split; [vm_compute; reflexivity|].
  rewrite (cleanModelOutput_plain single_quoted);
    [vm_compute; reflexivity | vm_compute; reflexivity | vm_compute; reflexivity
    | left; vm_compute; reflexivity].
Defined.

(** ** [cleanModelOutput]: what a cleaned text never holds *)

(** X1.  Whatever the input, the cleaned text holds no fence marker and
    has no white space at either end; an input of white space only is
    cleaned to the empty text. *)
Theorem cleanModelOutput_tidy (x : string) :
  Contains (cleanModelOutput x) fence = false /\
  TrimSpace (cleanModelOutput x) = cleanModelOutput x /\
  (TrimSpace x = EmptyString -> cleanModelOutput x = EmptyString).
Proof.
  split; [apply cleanModelOutput_no_fence|].
  split; [apply cleanModelOutput_trimmed|].
  intros H. unfold cleanModelOutput. rewrite H. reflexivity.
Qed.

(** ** [callOllama] *)

(** The paths through [callOllama], one goal for each. *)
Ltac run_callOllama env url req st :=
  unfold callOllama, callOllama_body;
  unfold bind, Do, close_body, ret, log_Printf, emit;
  destruct (json_Marshal env req) as [merr|] eqn:Em;
    [|destruct (http_NewRequest env "POST" url) as [nerr|] eqn:En;
      [|destruct (client_Do env (requests st) (mkClient (60 * Second))
                            (mkRequest "POST" url
                               [("Content-Type", "application/json")] (Some req)))
          as [derr|resp] eqn:Ed;
        [|destruct (400 <=? StatusCode resp)%Z eqn:Es;
          [|destruct (decode_stream (BodyValues resp) EmptyString) as [text|serr] eqn:Ev];
          destruct (CloseErr resp) as [cerr|] eqn:Ec]]];
  cbn [trace snd fst fs requests].


(** X6.  The errors of [callOllama]: when the request cannot be
    marshalled or built, nothing is sent; otherwise one POST is sent with
    the JSON content type, a transport error is returned as it is, and a
    status of 400 or more gives an error with the status and the body,
    whatever the stream holds. *)
Theorem callOllama_errors env url req st :
  let run := callOllama env url req st in
  (forall e, json_Marshal env req = Some e ->
     fst run = Ret (EmptyString, Some ("failed to marshal request: " +:+ e)) /\
     https (trace (snd run)) = https (trace st)) /\
  (forall e, json_Marshal env req = None -> http_NewRequest env "POST" url = Some e ->
     fst run = Ret (EmptyString, Some e) /\
     https (trace (snd run)) = https (trace st)) /\
  (json_Marshal env req = None -> http_NewRequest env "POST" url = None ->
     https (trace (snd run)) = https (trace st) ++ [(mkClient (60 * Second), post url req)] /\
     match client_Do env (requests st) (mkClient (60 * Second)) (post url req) with
     | inl e => fst run = Ret (EmptyString, Some e)
     | inr resp =>
       fst run = Ret (read_response resp) /\
       ((400 <= StatusCode resp)%Z ->
        fst run = Ret (EmptyString,
                       Some ("ollama error: status=" +:+ pretty (StatusCode resp)
                             +:+ " body=" +:+ Body resp)))
     end).
Proof.
  intros run. subst run. unfold post, read_response, https.
  run_callOllama env url req st.
  all: rewrite ?select_app; cbn [select]; rewrite ?app_nil_r.
  all: split; [intros e He; first [discriminate He | inversion He; subst; split; reflexivity]|].
  all: split; [intros e He1 He; first [discriminate He1 | discriminate He | inversion He; subst; split; reflexivity]|].
  all: intros H1 H2; try discriminate.
  all: rewrite <- ?app_assoc; cbn [app]; split; [reflexivity|].
  all: try reflexivity.
  all: split; [reflexivity|]; intros Hs.
  all: first [reflexivity | apply Z.leb_gt in Es; lia].
Qed.

(** X7.  A text that [callOllama] returns without error is a cleaned
    text: it holds no fence marker and is trimmed (the [TrimSpace] of line
    80 changes nothing). *)
Theorem callOllama_text_clean env url req st msg :
  fst (callOllama env url req st) = Ret (msg, None) ->
  Contains msg fence = false /\ TrimSpace msg = msg /\
  exists raw, msg = cleanModelOutput raw.
Proof.
  run_callOllama env url req st; intros H; try discriminate H.
  all: injection H as <-; rewrite cleanModelOutput_trimmed.
  all: split; [apply cleanModelOutput_no_fence|].
  all: split; [apply cleanModelOutput_trimmed | eexists; reflexivity].
Qed.

(** X8.  When closing the body of the response fails, the failure is
    logged as a warning and the call returns what it would have returned. *)
Theorem close_failure_logged env url req st rsp ce :
  json_Marshal env req = None -> http_NewRequest env "POST" url = None ->
  client_Do env (requests st) (mkClient (60 * Second)) (post url req) = inr rsp ->
  CloseErr rsp = Some ce ->
  let run := callOllama env url req st in
  fst run = Ret (read_response rsp) /\
  logs (trace (snd run))
  = logs (trace st) ++ ["warning: failed to close response body: " +:+ ce].
Proof.
  intros Hm Hn Hd Hc run. subst run. unfold post, read_response, logs in *.
  run_callOllama env url req st; try congruence.
  all: injection Hd as <-; rewrite Ec in Hc; try discriminate Hc; injection Hc as <-.
  all: rewrite ?select_app; cbn [select]; rewrite ?app_nil_r.
  all: rewrite ?Es, ?Ev, <- ?app_assoc; split; reflexivity.
Qed.

(** ** [checkOllama] *)

(** X9.  [checkOllama] always returns and leaves the files alone.  A URL
    that does not parse gives an error and no request; otherwise one GET of
    [/api/tags] is sent with a timeout of 3 seconds.  A transport failure
    gives the fixed hint, whatever its cause; a status of 400 or more gives
    an error with the status and the trimmed body; anything else is a
    success. *)
Theorem checkOllama_outcome env url st :
  let run := checkOllama env url st in
  exists r,
    fst run = Ret r /\ fs (snd run) = fs st /\
    match url_Parse env url with
    | Some e =>
      r = Some ("invalid ollama URL: " +:+ e) /\ https (trace (snd run)) = https (trace st)
    | None =>
      https (trace (snd run))
      = https (trace st) ++ [(mkClient (3 * Second), tags_request env url)] /\
      match client_Do env (requests st) (mkClient (3 * Second)) (tags_request env url) with
      | inl _ =>
        r = Some "ollama does not appear to be running; start it with 'ollama serve'"
      | inr resp =>
        if (400 <=? StatusCode resp)%Z
        then r = Some ("ollama tags endpoint returned status "
                       +:+ pretty (StatusCode resp) +:+ ": " +:+ TrimSpace (Body resp))
        else r = None
      end
    end.
Proof.
  intros run. subst run. unfold tags_request, https.
  unfold checkOllama, checkOllama_body.
  unfold bind, Do, close_body, ret, log_Printf, emit.
  destruct (url_Parse env url) as [perr|];
    [|destruct (client_Do env (requests st) _ _) as [derr|resp];
      [|destruct (400 <=? StatusCode resp)%Z; destruct (CloseErr resp)]];
    cbn [trace snd fst fs requests].
  all: eexists; split; [reflexivity|]; split; [reflexivity|].
  all: rewrite ?select_app; cbn [select]; rewrite ?app_nil_r.
  all: rewrite <- ?app_assoc; split; reflexivity.
Qed.

(** ** [getStagedDiff] *)

(** X10.  [getStagedDiff] runs [git diff --staged]; it runs [git diff]
    as well exactly when the staged diff came without error and is blank.
    The diff is returned as git printed it, untrimmed, the unstaged one
    even when it is blank too; an error comes with the empty text and wraps
    the output of the command that failed. *)
Theorem getStagedDiff_fallback env st :
  let run := getStagedDiff env st in
  let staged := exec_CombinedOutput env ["git"; "diff"; "--staged"] in
  let unstaged := exec_CombinedOutput env ["git"; "diff"] in
  exists r,
    fst run = Ret r /\ fs (snd run) = fs st /\ requests (snd run) = requests st /\
    match snd staged with
    | Some e =>
      r = (EmptyString,
           Some ("git --staged failed: " +:+ e +:+ "; output=" +:+ fst staged)) /\
      execs (trace (snd run)) = execs (trace st) ++ [["git"; "diff"; "--staged"]]
    | None =>
      if String.eqb (TrimSpace (fst staged)) EmptyString then
        execs (trace (snd run))
        = execs (trace st) ++ [["git"; "diff"; "--staged"]; ["git"; "diff"]] /\
        match snd unstaged with
        | Some e =>
          r = (EmptyString,
               Some ("git diff failed: " +:+ e +:+ "; output=" +:+ fst unstaged))
        | None => r = (fst unstaged, None)
        end
      else
        r = (fst staged, None) /\
        execs (trace (snd run)) = execs (trace st) ++ [["git"; "diff"; "--staged"]]
    end.
Proof.
  intros run staged unstaged. subst run staged unstaged. unfold execs.
  unfold getStagedDiff, getStagedDiff_body, bind, CombinedOutput, bind, emit, ret.
  cbn [fs requests trace].
  destruct (exec_CombinedOutput env ["git"; "diff"; "--staged"]) as [out [err|]];
    cbn [fst snd fs requests trace];
    [|destruct (String.eqb (TrimSpace out) EmptyString);
      [destruct (exec_CombinedOutput env ["git"; "diff"]) as [out2 [err2|]]|]];
    cbn [fst snd fs requests trace].
  all: eexists; split; [reflexivity|]; split; [reflexivity|]; split; [reflexivity|].
  all: rewrite ?select_app; cbn [select]; rewrite ?app_nil_r.
  all: rewrite <- ?app_assoc; split; reflexivity.
Qed.

(** ** The hook file, written twice *)

(** The hook file after the stage that writes it, when nothing fails. *)
Lemma write_hook_fs env f msg st :
  hookFile f <> EmptyString -> no_fault env (hookFile f) ->
  fs (snd (write_hook env f msg st)) =
  match fs st !! hookFile f, forceWrite f with
  | Some old, false => <[hookFile f := old +:+ hookDelimiter +:+ msg +:+ nl]> (fs st)
  | _, _ => <[hookFile f := msg +:+ nl]> (fs st)
  end.
Proof.
  intros Hne Hok. unfold write_hook.
  destruct (String.eqb_spec (hookFile f) EmptyString) as [|_]; [contradiction|].
  cbn [negb].
  unfold bind, statusf, eprint, emit, os_Stat, os_OpenFile, WriteString,
    os_WriteFile, fs_op, lookup_err, when, ret.
  rewrite !Hok.
  destruct (forceWrite f), (fs st !! hookFile f) eqn:E;
    repeat (progress (rewrite ?Hok, ?E;
                      cbn [fs requests trace is_nil negb andb fst snd default]));
    reflexivity.
Qed.

(** X11.  Writing the hook file twice, when nothing fails: without
    [forceWrite] the second message comes after the first, each behind its
    delimiter when the file was there before it, and nothing is lost; with
    [forceWrite] only the second message is left. *)
Theorem write_hook_twice env f m1 m2 st :
  hookFile f <> EmptyString -> no_fault env (hookFile f) ->
  let st1 := snd (write_hook env f m1 st) in
  let st2 := snd (write_hook env f m2 st1) in
  fs st2 =
  <[hookFile f :=
      if forceWrite f then m2 +:+ nl
      else match fs st !! hookFile f with
           | Some old => old +:+ hookDelimiter +:+ m1 +:+ nl
           | None => m1 +:+ nl
           end +:+ hookDelimiter +:+ m2 +:+ nl]> (fs st).
Proof.
  intros Hne Hok st1 st2. subst st2 st1.
  rewrite (write_hook_fs env f m2 _ Hne Hok), (write_hook_fs env f m1 st Hne Hok).
  destruct (fs st !! hookFile f) as [old|] eqn:E, (forceWrite f);
    rewrite ?lookup_insert_eq, ?insert_insert_eq; reflexivity.
Qed.

Section HookFull.
Context (env : Env).

(** The hook stage as a black box, with the files it leaves and the data
    it writes. *)
Lemma write_hook_run_full (f : Flags) (msg : string) (st : State) :
  exists r files n evs,
    write_hook env f msg st = (r, mkState files n (trace st ++ evs))
    /\ only hook_event evs
    /\ (forall p, p <> hookFile f -> files !! p = fs st !! p)
    /\ (forall o, In o (fsops evs) -> hook_op f msg o)
    /\ (forall code, r = Exit code -> In code [5; 6; 7]%Z).
Proof.
  run_in_goal (write_hook env f msg st). unfold write_hook.
  repeat run_step.
  all: leaf_trace.
  all: subst Q; cbv beta; eexists _, _, _, _; (split; [reflexivity|]).
  all: (split; [only_list|]).
  all: split; [intros p Hp; rewrite ?lookup_insert_ne by congruence; reflexivity|].
  all: sel_simpl.
  all: split; [|intros code H; first [discriminate H | injection H as <-; cbn; tauto]].
  all: intros o H; cbn [In] in H;
       repeat (destruct H as [H|H]; [subst o; cbn; repeat split; congruence|]);
       contradiction.
Qed.

Lemma close_hook_run_full (f : Flags) (msg : string) (opened : bool) (st : State) :
  exists evs,
    close_hook env f opened st
    = (Ret tt, mkState (fs st) (requests st) (trace st ++ evs))
    /\ only hook_event evs
    /\ (forall o, In o (fsops evs) -> hook_op f msg o).
Proof.
  run_in_goal (close_hook env f opened st). unfold close_hook.
  repeat run_step.
  all: leaf_trace.
  all: subst Q; cbv beta; eexists; (split; [reflexivity|]).
  all: (split; [only_list|]).
  all: sel_simpl; intros o H; cbn [In] in H;
       repeat (destruct H as [H|H]; [subst o; cbn; repeat split; congruence|]);
       contradiction.
Qed.
End HookFull.

Ltac hook_step_full :=
  lazymatch goal with
  | |- context [bind (write_hook ?e ?f ?m) ?k ?s] =>
    let r := fresh "hook" in let files := fresh "hfiles" in let n := fresh "n" in
    let evs := fresh "hevs" in let Heq := fresh "Heq" in
    let Ho := fresh "Hhook" in let Hf := fresh "Hframe" in let Hd := fresh "Hdata" in
    let Hc := fresh "Hcodes" in
    destruct (write_hook_run_full e f m s)
      as (r & files & n & evs & Heq & Ho & Hf & Hd & Hc);
    rewrite (bind_run_res _ k _ _ _ Heq); clear Heq;
    destruct r as [?opened|?code]
  | |- context [close_hook ?e ?f ?o ?s] =>
    let evs := fresh "cevs" in let Heq := fresh "Heq" in
    let Ho := fresh "Hclose" in let Hops := fresh "Hcloseops" in
    lazymatch goal with
    | Hd : forall o, In o (fsops _) -> hook_op f ?m o |- _ =>
      destruct (close_hook_run_full e f m o s) as (evs & Heq & Ho & Hops)
    end;
    rewrite Heq; clear Heq
  end;
  cbv beta; cbn [fs requests trace].

Tactic Notation "observe_files" "as" ident(Hname) :=
  lazymatch goal with
  | |- _ (_, mkState ?F _ _) => pose proof (eq_refl F) as Hname
  end.

Tactic Notation "observe_urls" constr(sel) "as" ident(Hname) :=
  lazymatch goal with
  | |- _ (_, mkState _ _ ?t) =>
    eassert (Hname : sel t = _) by (unfold probe_urls, call_urls; sel_simpl; reflexivity)
  end.

(** What every run of [main] shows, read off its paths. *)
Lemma main_facts env f files :
  let run := main env f (init files) in
  let evs := trace (snd run) in
  match stdout evs with
  | [] => In (exit_code run) [1; 2; 3; 4]%Z
  | [line] =>
    (exists req text,
        last (calls evs) = Some (req, (text, None)) /\ is_styler req = true /\
        line = final_message f text +:+ nl) /\
    In (exit_code run) [0; 5; 6; 7]%Z /\
    (forall o, In o (fsops (after_print evs)) -> hook_op f (final_message f
         (match last (calls evs) with Some c => fst (snd c) | None => EmptyString end)) o)
  | _ => False
  end /\
  (forall e, In (Some e) (probes evs) -> diffs evs = [] /\ calls evs = [] /\ fsops evs = []) /\
  (forall d e, In (d, Some e) (diffs evs) -> calls evs = [] /\ fsops evs = []) /\
  Forall (fun u => u = effectiveURL f) (probe_urls evs ++ call_urls evs) /\
  (forall p, p <> hookFile f -> p <> saveSummary f -> fs (snd run) !! p = files !! p).
Proof.
  intros run evs. subst evs run. unfold init.
  run_in_goal (main env f (mkState files 0 [])).
  unfold main, debug_flags, make_summary, load_summary, style.
  repeat first [hook_step_full | run_step].
  all: leaf_trace.
  all: observe probes as Hp; observe diffs as Hd; observe calls as Hc;
       observe fsops as Hf; observe fsops of after_print as Hfa;
       observe stdout as Ho; observe_urls probe_urls as Hpu;
       observe_urls call_urls as Hcu.
  all: subst Q; cbv beta; cbn [snd fst trace fs exit_code];
       rewrite Hp, Hd, Hc, Hf, Hfa, Ho, Hpu, Hcu; clear Hp Hd Hc Hf Hfa Ho Hpu Hcu.
  all: cbn [app last fst snd].
  all: unfold final_message;
       try match goal with H : noLabels _ = _ |- _ => rewrite H end.
  all: split;
       [ first
           [ cbn; tauto
           | split;
             [ eexists _, _; split; [reflexivity|];
               split; [apply is_styler_styleReq | reflexivity]
             | split;
               [ first [ cbn; tauto
                       | right; match goal with
                                | Hx : forall code, Exit ?c = Exit code -> _ |- _ =>
                                  exact (Hx _ eq_refl)
                                end ]
               | intros o H; in_cases H;
                 match goal with
                 | Hx : forall o, In o _ -> hook_op _ _ o |- _ => exact (Hx o H)
                 end ] ] ] |].
  all: split; [intros ? H; in_cases H; first [discriminate H | repeat split; reflexivity]|].
  all: split; [intros ? ? H; in_cases H; first [discriminate H | repeat split; reflexivity]|].
  all: split; [repeat (apply List.Forall_cons; [reflexivity|]); apply List.Forall_nil|].
  all: intros p H1 H2;
       repeat match goal with
              | Hx : forall p, p <> hookFile _ -> _ |- _ => rewrite (Hx p H1); clear Hx
              end;
       cbn [fs]; rewrite ?lookup_insert_ne by congruence; reflexivity.
Qed.

(** X12.  Standard output carries at most one line.  It carries none
    exactly when the run ends with exit code 1, 2, 3 or 4; otherwise it
    carries the text of the styler's call, the last call of the run,
    trimmed and, with [noLabels], stripped of its labels. *)
Theorem stdout_final_message env f files :
  let run := main env f (init files) in
  let evs := trace (snd run) in
  match stdout evs with
  | [] => In (exit_code run) [1; 2; 3; 4]%Z
  | [line] =>
    (exists req text,
        last (calls evs) = Some (req, (text, None)) /\ is_styler req = true /\
        line = final_message f text +:+ nl) /\
    In (exit_code run) [0; 5; 6; 7]%Z
  | _ => False
  end.
Proof.
  intros run evs. destruct (main_facts env f files) as (H & _).
  fold run evs in H. destruct (stdout evs) as [|line [|]]; [exact H | | exact H].
  destruct H as (H1 & H2 & _). split; assumption.
Qed.

(** X13.  After the message is printed, the run touches no file but the
    hook file, reads none, and what it writes there is the printed line
    (behind the delimiter when it appends). *)
Theorem hook_receives_printed env f files line :
  let run := main env f (init files) in
  let evs := trace (snd run) in
  stdout evs = [line] ->
  forall op p d e, In (op, p, d, e) (fsops (after_print evs)) ->
    p = hookFile f /\ op <> OpReadFile /\
    (op = OpWriteFile -> d = line) /\
    (op = OpWriteString -> d = hookDelimiter +:+ line).
Proof.
  intros run evs Hline op p d e Hin. destruct (main_facts env f files) as (H & _).
  fold run evs in H. rewrite Hline in H.
  destruct H as ((req & text & Hlast & _ & ->) & _ & H).
  specialize (H _ Hin). rewrite Hlast in H. cbn [fst snd hook_op] in H.
  destruct H as (Hp & Hw & Ha & Hr). repeat split; assumption.
Qed.

(** X14.  A failed probe is the end: no diff is taken, the backend is not
    called and no file is touched.  So is a failed diff: no call, no
    file. *)
Theorem failure_stops_run env f files :
  let run := main env f (init files) in
  let evs := trace (snd run) in
  (forall e, In (Some e) (probes evs) ->
             diffs evs = [] /\ calls evs = [] /\ fsops evs = []) /\
  (forall d e, In (d, Some e) (diffs evs) -> calls evs = [] /\ fsops evs = []).
Proof.
  intros run evs. destruct (main_facts env f files) as (_ & H1 & H2 & _).
  split; assumption.
Qed.

(** X15.  The probe and every call of the backend go to one URL: the
    value of the flag, or the default URL when the flag is empty. *)
Theorem one_backend_url env f files :
  let evs := trace (snd (main env f (init files))) in
  Forall (fun u => u = effectiveURL f) (probe_urls evs ++ call_urls evs) /\
  (ollamaURL f = EmptyString -> effectiveURL f = defaultOllamaURL) /\
  (ollamaURL f <> EmptyString -> effectiveURL f = ollamaURL f).
Proof.
  intros evs. destruct (main_facts env f files) as (_ & _ & _ & H & _).
  split; [exact H|]. unfold effectiveURL.
  destruct (String.eqb_spec (ollamaURL f) EmptyString); split; congruence.
Qed.

(** X16.  A run changes no file but the hook file and the file the
    summary is saved to. *)
Theorem other_files_kept env f files p :
  p <> hookFile f -> p <> saveSummary f ->
  fs (snd (main env f (init files))) !! p = files !! p.
Proof.
  intros H1 H2. destruct (main_facts env f files) as (_ & _ & _ & _ & H).
  exact (H p H1 H2).
Qed.

(** ** Examples of the further properties *)

Lemma hook_receives_printed_witness :
  stdout (trace (snd (main world_labels flags_strip (init notes))))
  = ["Arr" +:+ nl +:+ "matey" +:+ nl] /\
  forall op p d e,
    In (op, p, d, e)
       (fsops (after_print (trace (snd (main world_labels flags_strip (init notes)))))) ->
    p = "COMMIT_EDITMSG" /\ (op = OpWriteFile -> d = "Arr" +:+ nl +:+ "matey" +:+ nl).
Proof.
  assert (H : stdout (trace (snd (main world_labels flags_strip (init notes))))
              = ["Arr" +:+ nl +:+ "matey" +:+ nl]) by (vm_compute; reflexivity).
  split; [exact H|]. intros op p d e Hin.
  destruct (hook_receives_printed world_labels flags_strip notes _ H op p d e Hin)
    as (Hp & _ & Hw & _).
  split; assumption.
Defined.

Lemma other_files_kept_witness :
  "NOTES" <> hookFile flags_strip /\ "NOTES" <> saveSummary flags_strip /\
  fs (snd (main world_labels flags_strip (init notes))) !! "NOTES" = Some "keep me".
Proof.
  split; [discriminate|]. split; [discriminate|].
  rewrite (other_files_kept world_labels flags_strip notes "NOTES");
    [reflexivity | discriminate | discriminate].
Defined.

Lemma callOllama_text_clean_witness :
  fst (callOllama (world [inr resp_fenced]) defaultOllamaURL req0 (init ∅))
  = Ret ("func f(){}", None) /\
  Contains "func f(){}" fence = false /\ TrimSpace "func f(){}" = "func f(){}".
Proof.
  assert (H : fst (callOllama (world [inr resp_fenced]) defaultOllamaURL req0 (init ∅))
              = Ret ("func f(){}", None)) by (vm_compute; reflexivity).
  split; [exact H|].
  destruct (callOllama_text_clean _ _ _ _ _ H) as (H1 & H2 & _). split; assumption.
Defined.

Lemma close_failure_logged_witness :
  CloseErr resp_unclosed = Some "broken pipe" /\
  fst (callOllama (world [inr resp_unclosed]) defaultOllamaURL req0 (init ∅))
  = Ret ("Fix bug", None) /\
  logs (trace (snd (callOllama (world [inr resp_unclosed]) defaultOllamaURL req0 (init ∅))))
  = ["warning: failed to close response body: broken pipe"].
Proof.
  split; [reflexivity|].
  destruct (close_failure_logged (world [inr resp_unclosed]) defaultOllamaURL req0 (init ∅)
                                 resp_unclosed "broken pipe")
    as (H1 & H2); try reflexivity.
  split; [rewrite H1; vm_compute; reflexivity | rewrite H2; reflexivity].
Defined.

Lemma write_hook_twice_witness :
  fs (snd (write_hook (world []) (flags_hook false) "second"
                      (snd (write_hook (world []) (flags_hook false) "first" (init ∅)))))
  = {[ "COMMIT_EDITMSG" :=
         "first" +:+ nl +:+ hookDelimiter +:+ "second" +:+ nl ]}.
Proof.
  rewrite (write_hook_twice (world []) (flags_hook false) "first" "second" (init ∅));
    [vm_compute; reflexivity | discriminate | intros op; reflexivity].
Defined.
